(** * xyz2pdb: conversion of multi-frame XYZ files to multi-model PDB files

    A shallow embedding of [src/atomistic_models/xyz2pdb.py] and the
    properties of its two parts: the line formatter [format_pdb_line] and
    the stream converter [xyz_to_pdb].

    Modelling choices.
    - Text is [string] over ASCII characters: the predicates of Python's
      [str] ([isspace], decimal digits, [upper]) are the ASCII ones, and a
      character above 127 is an ordinary caseless, non-blank character.
    - A Python [int] is a [Z]; a Python [float] is a binary64 value, written
      as a [spec_float] (sign, 53-bit mantissa, exponent).
    - The input file is the list of lines that successive [readline] calls
      return ([file_lines]); at the end of the file [readline] returns the
      empty string.
    - Every [outfile.write] call writes one line; the converter's trace keeps
      which call it was together with its arguments ([record]), and [render]
      gives the text written.  Every [print(..., file=sys.stderr)] call is a
      [diag] carrying the values interpolated in the message.  The progress
      messages on standard output are not part of the model.
    - Opening the two files succeeds.  On ASCII input no exception is
      raised other than the [ValueError]s caught at lines 72, 85 and 132,
      so the handlers of lines 183-191 are never entered.
    - The interpreter's limit on the number of digits of an integer literal
      (an interpreter setting) is not part of the model. *)

From Stdlib Require Import ZArith List Bool Lia Ascii String.
From Stdlib Require Import Floats.SpecFloat Floats.PrimFloat Floats.FloatOps.
Import ListNotations.

Open Scope string_scope.
Open Scope Z_scope.

(** ** Characters and strings, as Python's [str] methods see them *)

Module PyStr.

Definition code (c : ascii) : Z := Z.of_N (N_of_ascii c).

(** [str.isspace] on ASCII: TAB, LF, VT, FF, CR, FS, GS, RS, US and space. *)
Definition is_space (c : ascii) : bool :=
  let n := code c in
  ((9 <=? n) && (n <=? 13)) || ((28 <=? n) && (n <=? 32)).

Definition is_digit (c : ascii) : bool :=
  let n := code c in (48 <=? n) && (n <=? 57).

Definition digit_val (c : ascii) : Z := code c - 48.

Definition upper_char (c : ascii) : ascii :=
  let n := code c in
  if (97 <=? n) && (n <=? 122) then ascii_of_N (Z.to_N (n - 32)) else c.

Definition lower_char (c : ascii) : ascii :=
  let n := code c in
  if (65 <=? n) && (n <=? 90) then ascii_of_N (Z.to_N (n + 32)) else c.

Fixpoint map_chars (f : ascii -> ascii) (s : string) : string :=
  match s with
  | EmptyString => EmptyString
  | String c r => String (f c) (map_chars f r)
  end.

(** [s.upper()] and [s.lower()] *)
Definition upper : string -> string := map_chars upper_char.
Definition lower : string -> string := map_chars lower_char.

Fixpoint lstrip (s : string) : string :=
  match s with
  | String c r => if is_space c then lstrip r else s
  | EmptyString => EmptyString
  end.

Fixpoint rstrip (s : string) : string :=
  match s with
  | EmptyString => EmptyString
  | String c r =>
      match rstrip r with
      | EmptyString => if is_space c then EmptyString else String c EmptyString
      | r' => String c r'
      end
  end.

(** [s.strip()] *)
Definition strip (s : string) : string := rstrip (lstrip s).

(** [s.split()]: the maximal runs of non-blank characters, in order.
    [cur] is the token being read, if any. *)
Fixpoint split_aux (cur : option string) (s : string) : list string :=
  match s with
  | EmptyString => match cur with Some t => [t] | None => [] end
  | String c r =>
      if is_space c then
        match cur with
        | Some t => t :: split_aux None r
        | None => split_aux None r
        end
      else
        match cur with
        | Some t => split_aux (Some (t ++ String c EmptyString)) r
        | None => split_aux (Some (String c EmptyString)) r
        end
  end.

Definition split (s : string) : list string := split_aux None s.

Fixpoint spaces (n : nat) : string :=
  match n with
  | O => EmptyString
  | S n' => String " " (spaces n')
  end.

(** Format specs [<w] and [>w]: pad to a minimal width, never truncate. *)
Definition ljust (w : nat) (s : string) : string :=
  s ++ spaces (w - String.length s).

Definition rjust (w : nat) (s : string) : string :=
  spaces (w - String.length s) ++ s.

(** [s[:n]] *)
Definition take (n : nat) (s : string) : string := substring 0 n s.

(** Decimal digits of a non-negative integer, most significant first. *)
Fixpoint digits_fuel (fuel : nat) (n : Z) (acc : string) : string :=
  match fuel with
  | O => acc
  | S f =>
      let acc' := String (ascii_of_N (Z.to_N (48 + n mod 10))) acc in
      if n <? 10 then acc' else digits_fuel f (n / 10) acc'
  end.

Definition digits (n : Z) : string :=
  digits_fuel (S (Z.to_nat (Z.log2 n))) n EmptyString.

(** [str(n)] for an [int], also the format type [d]. *)
Definition dec (n : Z) : string :=
  if n <? 0 then String "-" (digits (- n)) else digits n.

End PyStr.

Import PyStr.

(** ** Numbers: [int(s)], [float(s)] and the format type [f] *)

Module PyNum.

(** A digit part: decimal digits with single underscores between digits. *)
Fixpoint digitpart_aux (acc : Z) (after_us : bool) (s : string) : option Z :=
  match s with
  | EmptyString => if after_us then None else Some acc
  | String c r =>
      if is_digit c then digitpart_aux (10 * acc + digit_val c) false r
      else if Ascii.eqb c "_" then
        if after_us then None else digitpart_aux acc true r
      else None
  end.

Definition digitpart (s : string) : option Z :=
  match s with
  | String c r => if is_digit c then digitpart_aux (digit_val c) false r else None
  | EmptyString => None
  end.

(** An optional sign in front of [s]: is it negative, and what follows. *)
Definition split_sign (s : string) : bool * string :=
  match s with
  | String "-" r => (true, r)
  | String "+" r => (false, r)
  | _ => (false, s)
  end.

(** [int(s)] in base 10; [None] is [ValueError]. *)
Definition parse_int (s : string) : option Z :=
  let (neg, r) := split_sign (strip s) in
  match digitpart r with
  | Some n => Some (if neg then - n else n)
  | None => None
  end.

(** Underscores of a float literal: each one stands between two digits;
    they are removed before the number is read. *)
Fixpoint drop_underscores (prev : option ascii) (s : string) : option string :=
  match s with
  | EmptyString =>
      match prev with
      | Some "_"%char => None
      | _ => Some EmptyString
      end
  | String c r =>
      if Ascii.eqb c "_" then
        match prev with
        | Some p => if is_digit p then drop_underscores (Some c) r else None
        | None => None
        end
      else
        match prev with
        | Some "_"%char =>
            if is_digit c then option_map (String c) (drop_underscores (Some c) r)
            else None
        | _ => option_map (String c) (drop_underscores (Some c) r)
        end
  end.

(** Leading decimal digits of [s]: their value, how many, and the rest. *)
Fixpoint span_digits (acc : Z) (n : Z) (s : string) : Z * Z * string :=
  match s with
  | String c r =>
      if is_digit c then span_digits (10 * acc + digit_val c) (n + 1) r
      else (acc, n, s)
  | EmptyString => (acc, n, s)
  end.

(** The exponent part of a float literal, [None] when ill-formed. *)
Definition parse_exponent (s : string) : option Z :=
  match s with
  | EmptyString => Some 0
  | String c r =>
      if Ascii.eqb c "e" || Ascii.eqb c "E" then
        let (neg, r') := split_sign r in
        match span_digits 0 0 r' with
        | (v, n, EmptyString) =>
            if 0 <? n then Some (if neg then - v else v) else None
        | _ => None
        end
      else None
  end.

(** A decimal literal [digits [. digits] [e exponent]] as a pair [(m, e)]
    standing for [m * 10^e]. *)
Definition parse_decimal (s : string) : option (Z * Z) :=
  let '(ip, ni, r1) := span_digits 0 0 s in
  let '(m, nf, r2) :=
    match r1 with
    | String "." r => let '(v, n, r') := span_digits ip 0 r in (v, n, r')
    | _ => (ip, 0, r1)
    end in
  if 0 <? ni + nf then
    match parse_exponent r2 with
    | Some e => Some (m, e - nf)
    | None => None
    end
  else None.

Definition prec : Z := 53.
Definition emin : Z := -1074.
Definition emax_exp : Z := 971.

(** Quotient [num / den] rounded to the nearest integer, ties to even. *)
Definition div_rne (num den : Z) : Z :=
  let q := num / den in
  let r := num mod den in
  match 2 * r ?= den with
  | Lt => q
  | Gt => q + 1
  | Eq => if Z.even q then q else q + 1
  end.

(** The quotient [p / (q * 2^e)], rounded. *)
Definition scaled_rne (p q e : Z) : Z :=
  if e <? 0 then div_rne (p * 2 ^ (- e)) q else div_rne p (q * 2 ^ e).

Definition scaled_floor (p q e : Z) : Z :=
  if e <? 0 then (p * 2 ^ (- e)) / q else p / (q * 2 ^ e).

(** The binary64 value nearest to [p / q] (ties to even), for [0 <= p] and
    [0 < q]: overflow gives an infinity, underflow a subnormal or zero. *)
Definition round_double (neg : bool) (p q : Z) : spec_float :=
  if p =? 0 then S754_zero neg
  else
    let e0 := Z.max (Z.log2 p - Z.log2 q - prec) emin in
    let e1 := if 2 ^ prec <=? scaled_floor p q e0 then e0 + 1 else e0 in
    let m1 := scaled_rne p q e1 in
    let '(m, e) := if m1 =? 2 ^ prec then (2 ^ (prec - 1), e1 + 1) else (m1, e1) in
    if emax_exp <? e then S754_infinity neg
    else
      match m with
      | Zpos mp => S754_finite neg mp e
      | _ => S754_zero neg
      end.

Definition decimal_to_double (neg : bool) (m e : Z) : spec_float :=
  if 0 <=? e then round_double neg (m * 10 ^ e) 1
  else round_double neg m (10 ^ (- e)).

(** [float(s)]; [None] is [ValueError]. *)
Definition parse_float (s : string) : option spec_float :=
  match drop_underscores None (strip s) with
  | None => None
  | Some t =>
      let (neg, r) := split_sign t in
      let w := lower r in
      if String.eqb w "inf" || String.eqb w "infinity" then Some (S754_infinity neg)
      else if String.eqb w "nan" then Some S754_nan
      else
        match parse_decimal r with
        | Some (m, e) => Some (decimal_to_double neg m e)
        | None => None
        end
  end.

Fixpoint zeros (n : nat) : string :=
  match n with
  | O => EmptyString
  | S n' => String "0" (zeros n')
  end.

(** Fixed-point digits of a non-negative integer [n] standing for
    [n / 10^p]: at least one digit before the point. *)
Definition fixed_digits (p : nat) (n : Z) : string :=
  let ds := digits n in
  let padded := zeros (S p - String.length ds) ++ ds in
  let k := (String.length padded - p)%nat in
  match p with
  | O => padded
  | _ => substring 0 k padded ++ "." ++ substring k p padded
  end.

(** The format type [.pf]: the exact value of the float rounded to [p]
    decimals, ties to even. *)
Definition format_f (p : nat) (x : spec_float) : string :=
  match x with
  | S754_nan => "nan"
  | S754_infinity s => if s then "-inf" else "inf"
  | S754_zero s => (if s then "-" else EmptyString) ++ fixed_digits p 0
  | S754_finite s m e =>
      (if s then "-" else EmptyString) ++
      fixed_digits p (scaled_rne (Zpos m * 10 ^ Z.of_nat p) 1 (- e))
  end.

(** The float literals [1.00] and [0.00] of the converter. *)
Definition float_one : spec_float := S754_finite false 4503599627370496 (-52).
Definition float_zero : spec_float := S754_zero false.

End PyNum.

Import PyNum.

(** ** The line formatter *)

Definition nl : string := String "010" EmptyString.

(** [format_pdb_line], piece by piece as the f-strings of the source. *)
Definition format_pdb_line
    (atom_serial : Z) (atom_name res_name chain_id : string) (res_seq : Z)
    (x y z occupancy temp_factor : spec_float) (element_sym : string) : string :=
  let atom_name_pdb := " " ++ ljust 3 atom_name in
  let line :=
    ("ATOM  " ++ rjust 5 (dec atom_serial))
    ++ (" " ++ ljust 4 atom_name_pdb)
    ++ (ljust 3 res_name ++ " ")
    ++ chain_id
    ++ (rjust 4 (dec res_seq) ++ "    ")
    ++ rjust 8 (format_f 3 x)
    ++ rjust 8 (format_f 3 y)
    ++ rjust 8 (format_f 3 z)
    ++ rjust 6 (format_f 2 occupancy)
    ++ (rjust 6 (format_f 2 temp_factor) ++ "      ")
    ++ ("    " ++ rjust 2 element_sym ++ "  ") in
  line ++ nl.

(** ** The stream converter *)

(** The arguments of one [format_pdb_line] call. *)
Record atom : Type := mk_atom {
  atom_serial : Z;
  atom_name : string;
  res_name : string;
  chain_id : string;
  res_seq : Z;
  coord_x : spec_float;
  coord_y : spec_float;
  coord_z : spec_float;
  occupancy : spec_float;
  temp_factor : spec_float;
  element_sym : string
}.

(** What one [outfile.write] call writes. *)
Inductive record : Type :=
| MODEL (model_count : Z)
| ATOM (a : atom)
| ENDMDL
| END.

Definition render (r : record) : string :=
  match r with
  | MODEL n => "MODEL     " ++ rjust 4 (dec n) ++ nl
  | ATOM a =>
      format_pdb_line (atom_serial a) (atom_name a) (res_name a) (chain_id a)
        (res_seq a) (coord_x a) (coord_y a) (coord_z a)
        (occupancy a) (temp_factor a) (element_sym a)
  | ENDMDL => "ENDMDL" ++ nl
  | END => "END" ++ nl
  end.

(** The messages on standard error, with the values they interpolate. *)
Inductive diag : Type :=
| InvalidAtomCount (line_num : Z) (text : string)
| NonPositiveAtomCount (num_atoms line_num : Z)
| EofAfterAtomCount (line_num : Z)
| EofInFrame (model_count num_atoms read : Z)
| ShortAtomLine (line_num model_count : Z) (text : string)
| BadAtomLine (line_num model_count : Z) (token text : string)
| SerialTooLarge (atom_serial model_count : Z)
| NoValidFrames.

Inductive event : Type :=
| Write (r : record)
| Warn (d : diag).

(** The counters of [xyz_to_pdb]. *)
Record counters : Type := mk_counters {
  model_count : Z;
  line_num : Z;
  processed_atoms_total : Z
}.

Definition next_line_num (st : counters) : counters :=
  mk_counters (model_count st) (line_num st + 1) (processed_atoms_total st).

Definition next_model (st : counters) : counters :=
  mk_counters (model_count st + 1) (line_num st) (processed_atoms_total st).

Definition next_atom (st : counters) : counters :=
  mk_counters (model_count st) (line_num st) (processed_atoms_total st + 1).

(** The input stream: the lines still to be read. *)
Definition stream : Type := list string.

(** [infile.readline()]: the next line, or the empty string at the end. *)
Definition readline (infile : stream) : string * stream :=
  match infile with
  | [] => (EmptyString, [])
  | l :: rest => (l, rest)
  end.

Definition is_empty (s : string) : bool :=
  match s with
  | EmptyString => true
  | _ => false
  end.

(** Lines 122-134: the tokens of an atom line and its three coordinates. *)
Inductive atom_parse : Type :=
| TooFewTokens
| NotAFloat (token : string)
| ParsedAtom (element : string) (x y z : spec_float).

Definition parse_atom_line (atom_line : string) : atom_parse :=
  match split atom_line with
  | element :: p1 :: p2 :: p3 :: _ =>
      match parse_float p1 with
      | None => NotAFloat p1
      | Some x =>
          match parse_float p2 with
          | None => NotAFloat p2
          | Some y =>
              match parse_float p3 with
              | None => NotAFloat p3
              | Some z => ParsedAtom element x y z
              end
          end
      end
  | _ => TooFewTokens
  end.

(** Lines 141-170: the [format_pdb_line] call for a parsed atom. *)
Definition make_atom (serial : Z) (element : string) (x y z : spec_float) : atom :=
  {| atom_serial := serial;
     atom_name := element;
     res_name := "MOL";
     chain_id := "A";
     res_seq := 1;
     coord_x := x; coord_y := y; coord_z := z;
     occupancy := float_one;
     temp_factor := float_zero;
     element_sym := take 2 (upper element) |}.

Open Scope list_scope.

Definition result : Type := list event * counters * stream.

Definition emit (evs : list event) (r : result) : result :=
  let '(evs', st, infile) := r in (evs ++ evs', st, infile).

(** Lines 150-157: the warning for a serial number above 99999; the number
    is written as it is. *)
Definition serial_warning (atom_serial_pdb model_count : Z) : list event :=
  if 99999 <? atom_serial_pdb
  then [Warn (SerialTooLarge atom_serial_pdb model_count)]
  else [].

(** Lines 115-171: [for i in range(num_atoms)], with [todo] iterations left
    and [i] the loop index. *)
Fixpoint read_atoms (todo : nat) (i num_atoms : Z) (st : counters)
    (atom_serial_pdb : Z) (infile : stream) : result :=
  match todo with
  | O => ([], st, infile)
  | S todo' =>
      let (atom_line, infile) := readline infile in
      let st := next_line_num st in
      if is_empty atom_line then
        ([Warn (EofInFrame (model_count st) num_atoms i)], st, infile)
      else
        match parse_atom_line atom_line with
        | TooFewTokens =>
            emit [Warn (ShortAtomLine (line_num st) (model_count st) (strip atom_line))]
              (read_atoms todo' (i + 1) num_atoms st atom_serial_pdb infile)
        | NotAFloat tok =>
            emit [Warn (BadAtomLine (line_num st) (model_count st) tok (strip atom_line))]
              (read_atoms todo' (i + 1) num_atoms st atom_serial_pdb infile)
        | ParsedAtom element x y z =>
            let atom_serial_pdb := atom_serial_pdb + 1 in
            let st := next_atom st in
            let warning := serial_warning atom_serial_pdb (model_count st) in
            emit (warning ++ [Write (ATOM (make_atom atom_serial_pdb element x y z))])
              (read_atoms todo' (i + 1) num_atoms st atom_serial_pdb infile)
        end
  end.

(** Lines 75-86: the search for the next line that reads as an integer.
    On success the line after it is read as well (line 83). *)
Fixpoint recover (st : counters) (infile : stream) : option Z * counters * stream :=
  match infile with
  | [] => (None, next_line_num st, [])
  | next_line :: infile' =>
      let st := next_line_num st in
      if is_empty next_line then (None, st, infile')
      else
        match parse_int (strip next_line) with
        | Some num_atoms => (Some num_atoms, next_line_num st, snd (readline infile'))
        | None => recover st infile'
        end
  end.

(** Lines 96-98: [for _ in range(num_atoms): infile.readline()]. *)
Fixpoint skip_lines (todo : nat) (st : counters) (infile : stream) : counters * stream :=
  match todo with
  | O => (st, infile)
  | S todo' => skip_lines todo' (next_line_num st) (snd (readline infile))
  end.

(** How one pass through the body of [while True] ends: with [break], or
    by going back to the top of the loop ([continue] or the end of the body). *)
Inductive pass : Type :=
| Break (evs : list event) (st : counters)
| Continue (evs : list event) (st : counters) (infile : stream).

(** Lines 65-88: the atom count of the next frame.  [None]: the input ended
    during the search that follows a line that is not an integer. *)
Definition read_header (num_atoms_line : string) (st : counters) (infile : stream)
  : list event * option Z * counters * stream :=
  match parse_int (strip num_atoms_line) with
  | Some num_atoms => ([], Some num_atoms, st, infile)
  | None =>
      let '(found, st', infile') := recover st infile in
      ([Warn (InvalidAtomCount (line_num st) (strip num_atoms_line))],
       found, st', infile')
  end.

(** Lines 91-174: the frame whose atom count is [num_atoms]. *)
Definition read_frame (num_atoms : Z) (st : counters) (infile : stream) : pass :=
  if num_atoms <=? 0 then
    let w := Warn (NonPositiveAtomCount num_atoms (line_num st)) in
    let infile := snd (readline infile) in
    let st := next_line_num st in
    let (st, infile) := skip_lines (Z.to_nat num_atoms) st infile in
    Continue [w] st infile
  else
    let (comment_line, infile) := readline infile in
    let st := next_line_num st in
    if is_empty comment_line then
      Break [Warn (EofAfterAtomCount (line_num st - 1))] st
    else
      let st := next_model st in
      let '(evs, st', infile') :=
        read_atoms (Z.to_nat num_atoms) 0 num_atoms st 0 infile in
      Continue (Write (MODEL (model_count st)) :: evs ++ [Write ENDMDL]) st' infile'.

Definition emit_pass (evs : list event) (p : pass) : pass :=
  match p with
  | Break evs' st => Break (evs ++ evs') st
  | Continue evs' st infile => Continue (evs ++ evs') st infile
  end.

(** Lines 63-174: one pass through the body of the loop. *)
Definition iteration (st : counters) (infile : stream) : pass :=
  let (num_atoms_line, infile) := readline infile in
  let st := next_line_num st in
  if is_empty num_atoms_line then Break [] st
  else
    let '(warning, found, st, infile) := read_header num_atoms_line st infile in
    match found with
    | None => Break warning st
    | Some num_atoms => emit_pass warning (read_frame num_atoms st infile)
    end.

Definition emit_opt (evs : list event) (r : option (list event * counters))
  : option (list event * counters) :=
  match r with
  | Some (evs', st) => Some (evs ++ evs', st)
  | None => None
  end.

(** Lines 62-174: the [while True] loop over the frames.  [fuel] bounds the
    number of passes; [None] means that it ran out. *)
Fixpoint frames (fuel : nat) (st : counters) (infile : stream)
  : option (list event * counters) :=
  match fuel with
  | O => None
  | S fuel' =>
      match iteration st infile with
      | Break evs st' => Some (evs, st')
      | Continue evs st' infile' => emit_opt evs (frames fuel' st' infile')
      end
  end.

(** Lines 62-180 from the counters [st]: the loop, then the final record. *)
Definition convert (st : counters) (infile : stream) : option (list event * counters) :=
  match frames (S (List.length infile)) st infile with
  | Some (evs, st') =>
      Some (evs ++ [if 0 <? model_count st' then Write END else Warn NoValidFrames], st')
  | None => None
  end.

(** Text mode: [\r\n] and [\r] are read as [\n]. *)
Fixpoint universal_newlines (s : string) : string :=
  match s with
  | EmptyString => EmptyString
  | String c r =>
      if Ascii.eqb c "013" then
        match r with
        | String "010" r' => String "010" (universal_newlines r')
        | _ => String "010" (universal_newlines r)
        end
      else String c (universal_newlines r)
  end.

(** The lines of a text, each with its newline; [cur] is the line being read. *)
Fixpoint lines_aux (cur : string) (s : string) : list string :=
  match s with
  | EmptyString => if is_empty cur then [] else [cur]
  | String c r =>
      if Ascii.eqb c "010" then (cur ++ nl)%string :: lines_aux EmptyString r
      else lines_aux (cur ++ String c EmptyString)%string r
  end.

Definition file_lines (content : string) : stream :=
  lines_aux EmptyString (universal_newlines content).

Definition initial : counters := mk_counters 0 0 0.

(** [xyz_to_pdb] on an input file with the given content: the trace of
    writes and warnings, and the final counters. *)
Definition xyz_to_pdb (content : string) : option (list event * counters) :=
  convert initial (file_lines content).

Fixpoint writes (evs : list event) : list record :=
  match evs with
  | [] => []
  | Write r :: evs' => r :: writes evs'
  | Warn _ :: evs' => writes evs'
  end.

Fixpoint warnings (evs : list event) : list diag :=
  match evs with
  | [] => []
  | Write _ :: evs' => warnings evs'
  | Warn d :: evs' => d :: warnings evs'
  end.

(** The content of the output file after the writes of a trace. *)
Definition pdb_text (evs : list event) : string :=
  String.concat EmptyString (map render (writes evs)).

(** ** Vocabulary of the properties *)

Definition nonempty (l : string) : Prop := l <> EmptyString.

Definition events_of (r : result) : list event := fst (fst r).
Definition counters_of (r : result) : counters := snd (fst r).
Definition rest_of (r : result) : stream := snd r.

(** Lines 177-180: what follows the loop. *)
Definition final_record (st : counters) : event :=
  if 0 <? model_count st then Write END else Warn NoValidFrames.

Definition is_some {A : Type} (o : option A) : bool :=
  match o with
  | Some _ => true
  | None => false
  end.

(** [n] consecutive integers from [a]. *)
Fixpoint count_from (a : Z) (n : nat) : list Z :=
  match n with
  | O => []
  | S n' => a :: count_from (a + 1) n'
  end.

(** *** Atom lines *)

Definition parseable (t : string) : bool := is_some (parse_float t).

(** An atom line in the input format: an element symbol and three numbers,
    then anything. *)
Definition atom_line_ok (l : string) : bool :=
  match split l with
  | _ :: p1 :: p2 :: p3 :: _ => parseable p1 && parseable p2 && parseable p3
  | _ => false
  end.

(** Fewer than four tokens, or a second, third or fourth token that is not
    a number. *)
Definition malformed (l : string) : bool :=
  let toks := split l in
  (List.length toks <? 4)%nat || negb (forallb parseable (firstn 3 (skipn 1 toks))).

(** The rule with the last three tokens in the place of the second, third
    and fourth. *)
Definition malformed_by_last_three (l : string) : bool :=
  let toks := split l in
  (List.length toks <? 4)%nat
  || negb (forallb parseable (skipn (List.length toks - 3) toks)).

(** The atoms of the lines that parse, with the serial numbers that follow
    [serial]. *)
Fixpoint valid_atoms (serial : Z) (ls : list string) : list atom :=
  match ls with
  | [] => []
  | l :: ls' =>
      match parse_atom_line l with
      | ParsedAtom element x y z =>
          make_atom (serial + 1) element x y z :: valid_atoms (serial + 1) ls'
      | _ => valid_atoms serial ls'
      end
  end.

(** An atom as the converter passes it to the formatter. *)
Definition converted (a : atom) : Prop :=
  exists serial element x y z, a = make_atom serial element x y z.

Definition short_element (r : record) : Prop :=
  match r with
  | ATOM a => (String.length (element_sym a) <= 2)%nat
  | _ => True
  end.

(** *** MODEL blocks *)

(** One MODEL block of the output: its number and its atoms. *)
Definition block : Type := (Z * list atom)%type.

Definition block_records (b : block) : list record :=
  MODEL (fst b) :: map ATOM (snd b) ++ [ENDMDL].

Definition numbered_from_one (atoms : list atom) : Prop :=
  map atom_serial atoms = count_from 1 (List.length atoms).

(** What a pass writes: nothing, or one whole MODEL block. *)
Definition pass_writes (mc : Z) (evs : list event) (st' : counters) : Prop :=
  (writes evs = [] /\ model_count st' = mc) \/
  (exists atoms,
      writes evs = block_records (mc + 1, atoms) /\
      numbered_from_one atoms /\ Forall converted atoms /\
      model_count st' = mc + 1).

(** *** Frames of the input *)

(** A frame: its atom-count line, its comment line, its atom lines. *)
Record frame : Type := mk_frame {
  header : string;
  comment : string;
  atom_lines : list string
}.

Definition frame_lines (f : frame) : list string :=
  header f :: comment f :: atom_lines f.

(** The atom count a frame declares (0 when its header is not an integer). *)
Definition declared_atoms (f : frame) : Z :=
  match parse_int (strip (header f)) with
  | Some k => k
  | None => 0
  end.

(** A well-formed frame: a positive atom count, and as many atom lines, all
    in the input format. *)
Definition well_formedb (f : frame) : bool :=
  match parse_int (strip (header f)) with
  | Some k =>
      (0 <? k) && (Z.of_nat (List.length (atom_lines f)) =? k)
      && forallb atom_line_ok (atom_lines f)
  | None => false
  end.

Definition well_formed (f : frame) : Prop := well_formedb f = true.

(** A frame with a positive atom count and as many lines after its comment,
    in the input format or not. *)
Definition framed (f : frame) : Prop :=
  exists k,
    parse_int (strip (header f)) = Some k /\ 0 < k /\
    Z.of_nat (List.length (atom_lines f)) = k /\
    nonempty (comment f) /\ Forall nonempty (atom_lines f).

(** The atoms written for a frame. *)
Definition frame_atoms (f : frame) : list atom := valid_atoms 0 (atom_lines f).

(** The MODEL blocks of a list of frames, numbered from [n]. *)
Fixpoint model_blocks (n : Z) (fs : list frame) : list record :=
  match fs with
  | [] => []
  | f :: fs' => block_records (n, frame_atoms f) ++ model_blocks (n + 1) fs'
  end.

(** *** Inputs of the examples *)

Definition line (s : string) : string := (s ++ nl)%string.

(** The floats that [0.0], [1.0], [1.5], [2] and [3] read as. *)
Definition f_0 : spec_float := S754_zero false.
Definition f_1 : spec_float := S754_finite false 4503599627370496 (-52).
Definition f_1_5 : spec_float := S754_finite false 6755399441055744 (-52).
Definition f_2 : spec_float := S754_finite false 4503599627370496 (-51).
Definition f_3 : spec_float := S754_finite false 6755399441055744 (-51).

(** The float that [1.23456] reads as. *)
Definition x_1_23456 : spec_float := S754_finite false 5559963955966520 (-52).

(** One frame of two atoms. *)
Definition two_atom_frame : frame :=
  mk_frame (line "2") (line "frame1") [line "C 0.0 0.0 0.0"; line "O 1.5 0.0 0.0"].

Definition two_atom_input : string :=
  (line "2" ++ line "frame1" ++ line "C 0.0 0.0 0.0" ++ line "O 1.5 0.0 0.0")%string.

(** The same frame after a line that is not an atom count. *)
Definition recovery_input : string := (line "x" ++ two_atom_input)%string.

(** A frame without atoms and a frame of one atom, and the same two frames
    after a line that is not an atom count. *)
Definition empty_frame_input : string :=
  (line "0" ++ line "comment" ++ line "1" ++ line "c" ++ line "H 1 2 3")%string.

Definition recovered_empty_frame_input : string :=
  (line "x" ++ empty_frame_input)%string.

Definition five_token_line : string := line "C 1 2 3 x".

Definition column_example : string :=
  format_pdb_line 1 "C" "MOL" "A" 1 f_1_5 f_0 f_0 float_one float_zero "C".

Definition three_letter_example : string :=
  format_pdb_line 1 "C" "MOL" "A" 1 f_0 f_0 f_0 float_one float_zero "ABC".

(** *** Further vocabulary *)

(** The number of ATOM records among the records written. *)
Fixpoint count_atoms (rs : list record) : Z :=
  match rs with
  | [] => 0
  | ATOM _ :: rs' => 1 + count_atoms rs'
  | _ :: rs' => count_atoms rs'
  end.

(** A line that does not read as an integer. *)
Definition not_a_count (l : string) : Prop := parse_int (strip l) = None.

(** A string of blanks only. *)
Fixpoint blank (s : string) : bool :=
  match s with
  | EmptyString => true
  | String c r => is_space c && blank r
  end.

(** The length of an ATOM line, field by field. *)
Definition atom_line_length
    (serial : Z) (name res chain : string) (seq : Z)
    (x y z occ tf : spec_float) (element : string) : nat :=
  (26 + Nat.max 5 (String.length (dec serial))
   + Nat.max 3 (String.length name) + Nat.max 3 (String.length res)
   + String.length chain + Nat.max 4 (String.length (dec seq))
   + Nat.max 8 (String.length (format_f 3 x))
   + Nat.max 8 (String.length (format_f 3 y))
   + Nat.max 8 (String.length (format_f 3 z))
   + Nat.max 6 (String.length (format_f 2 occ))
   + Nat.max 6 (String.length (format_f 2 tf))
   + Nat.max 2 (String.length element))%nat.

(** The line of number [n] in a file, counting from 1. *)
Definition line_at (L : list string) (n : Z) : option string :=
  if n <? 1 then None else nth_error L (Z.to_nat (n - 1)).

(** A warning about a line names the number of that line in the file and
    quotes the line without the blanks around it; the token of a warning
    about a number is a token of the line that is not a number. *)
Definition located (L : list string) (d : diag) : Prop :=
  match d with
  | InvalidAtomCount n text =>
      exists l, line_at L n = Some l /\ text = strip l /\ not_a_count l
  | ShortAtomLine n _ text =>
      exists l, line_at L n = Some l /\ text = strip l /\ (List.length (split l) < 4)%nat
  | BadAtomLine n _ tok text =>
      exists l, line_at L n = Some l /\ text = strip l
                /\ In tok (split l) /\ parse_float tok = None
  | _ => True
  end.

(** The input still to be read is the file from the line after the line
    count [n]. *)
Definition in_step (L : list string) (n : Z) (infile : stream) : Prop :=
  0 <= n /\ infile = skipn (Z.to_nat n) L.

(** A float literal that is a decimal number: its sign, its digits as an
    integer [m] and its exponent [e], standing for [m * 10^e]. *)
Definition decimal_literal (s : string) : option (bool * Z * Z) :=
  match drop_underscores None (strip s) with
  | None => None
  | Some t =>
      let (neg, r) := split_sign t in
      let w := lower r in
      if String.eqb w "inf" || String.eqb w "infinity" then None
      else if String.eqb w "nan" then None
      else
        match parse_decimal r with
        | Some (m, e) => Some (neg, m, e)
        | None => None
        end
  end.

Definition sign_text (neg : bool) : string := if neg then "-" else EmptyString.

(** Two lines with the same text between the blanks around it (and both
    there, or both the empty string of the end of the input). *)
Definition same_text (l l' : string) : Prop :=
  strip l = strip l' /\ is_empty l = is_empty l'.

(** Two passes that end the same way, on inputs with the same text. *)
Definition same_pass (p p' : pass) : Prop :=
  match p, p' with
  | Break evs st, Break evs' st' => evs = evs' /\ st = st'
  | Continue evs st infile, Continue evs' st' infile' =>
      evs = evs' /\ st = st' /\ Forall2 same_text infile infile'
  | _, _ => False
  end.

(** Text without a newline, and text that is one line: a newline at its
    end and nowhere else. *)
Fixpoint no_newline (s : string) : bool :=
  match s with
  | EmptyString => true
  | String c r => negb (Ascii.eqb c "010") && no_newline r
  end.

Definition one_line (t : string) : Prop :=
  exists s, t = (s ++ nl)%string /\ no_newline s = true.

Fixpoint no_blank (s : string) : bool :=
  match s with
  | EmptyString => true
  | String c r => negb (is_space c) && no_blank r
  end.

(** The serial numbers above 99999 among the ATOM records written, and the
    serial numbers that the warnings of line 151 name. *)
Fixpoint long_serials (rs : list record) : list Z :=
  match rs with
  | [] => []
  | ATOM a :: rs' =>
      if 99999 <? atom_serial a then atom_serial a :: long_serials rs'
      else long_serials rs'
  | _ :: rs' => long_serials rs'
  end.

Fixpoint warned_serials (ds : list diag) : list Z :=
  match ds with
  | [] => []
  | SerialTooLarge s _ :: ds' => s :: warned_serials ds'
  | _ :: ds' => warned_serials ds'
  end.

(** * Properties *)

(** ** Strings *)

Lemma string_app_assoc (a b c : string) :
  ((a ++ b) ++ c)%string = (a ++ (b ++ c))%string.
Proof.
  induction a as [|ch a IH]; simpl; [reflexivity | now rewrite IH].
Qed.

Lemma string_app_length (a b : string) :
  String.length (a ++ b)%string = (String.length a + String.length b)%nat.
Proof.
  induction a as [|ch a IH]; simpl; [reflexivity | now rewrite IH].
Qed.

Lemma spaces_length (n : nat) : String.length (spaces n) = n.
Proof.
  induction n as [|n IH]; simpl; [reflexivity | now rewrite IH].
Qed.

Lemma take_length (n : nat) (s : string) : (String.length (take n s) <= n)%nat.
Proof.
  unfold take. revert s.
  induction n as [|n IH]; intros [|c s]; simpl; try lia.
  specialize (IH s). lia.
Qed.

Lemma is_empty_false (s : string) : s <> EmptyString -> is_empty s = false.
Proof.
  destruct s; [congruence | reflexivity].
Qed.

(** ** The input stream *)

Lemma lines_aux_nonempty (s cur : string) : Forall nonempty (lines_aux cur s).
Proof.
  revert cur.
  induction s as [|c s IH]; intros cur; simpl.
  - destruct cur; simpl; constructor; [discriminate | constructor].
  - destruct (Ascii.eqb c "010").
    + constructor; [|apply IH].
      unfold nonempty. destruct cur; discriminate.
    + apply IH.
Qed.

(** [readline] returns the empty string only at the end of a file. *)
Lemma file_lines_nonempty (content : string) : Forall nonempty (file_lines content).
Proof.
  apply lines_aux_nonempty.
Qed.

(** ** Termination of the loop *)

Lemma emit_rest (evs : list event) (r : result) : rest_of (emit evs r) = rest_of r.
Proof.
  destruct r as [[evs' st] infile]. reflexivity.
Qed.

Lemma read_atoms_rest (todo : nat) :
  forall i k st s infile,
    (List.length (rest_of (read_atoms todo i k st s infile)) <= List.length infile)%nat.
Proof.
  induction todo as [|todo IH]; intros i k st s infile; simpl.
  - lia.
  - destruct infile as [|l rest]; simpl; [lia|].
    destruct (is_empty l); simpl; [lia|].
    destruct (parse_atom_line l); rewrite emit_rest;
      match goal with |- context [read_atoms todo ?a ?b ?c ?d rest] =>
        specialize (IH a b c d rest) end; lia.
Qed.

Lemma recover_rest (infile : stream) :
  forall st, (List.length (snd (recover st infile)) <= List.length infile)%nat.
Proof.
  induction infile as [|l rest IH]; intros st; simpl; [lia|].
  destruct (is_empty l); simpl; [lia|].
  destruct (parse_int (strip l)); simpl.
  - destruct rest; simpl; lia.
  - specialize (IH (next_line_num st)). lia.
Qed.

Lemma skip_lines_rest (todo : nat) :
  forall st infile,
    (List.length (snd (skip_lines todo st infile)) <= List.length infile)%nat.
Proof.
  induction todo as [|todo IH]; intros st infile; simpl; [lia|].
  specialize (IH (next_line_num st) (snd (readline infile))).
  destruct infile; simpl in *; lia.
Qed.

Lemma read_frame_rest (n : Z) (st : counters) (infile : stream) evs st' infile' :
  read_frame n st infile = Continue evs st' infile' ->
  (List.length infile' <= List.length infile)%nat.
Proof.
  unfold read_frame. destruct (n <=? 0).
  - pose proof (skip_lines_rest (Z.to_nat n) (next_line_num st) (snd (readline infile))) as H.
    destruct (skip_lines _ _ _) as [st1 in1]. intros E. inversion E; subst.
    simpl in H. destruct infile; simpl in *; lia.
  - destruct infile as [|c rest]; simpl; [discriminate|].
    destruct (is_empty c); [discriminate|].
    pose proof (read_atoms_rest (Z.to_nat n) 0 n (next_model (next_line_num st)) 0 rest) as H.
    destruct (read_atoms _ _ _ _ _ _) as [[evs1 st1] in1].
    intros E. inversion E; subst. simpl in H. lia.
Qed.

(** A pass that goes on has read at least one line. *)
Lemma iteration_rest (st : counters) (infile : stream) evs st' infile' :
  iteration st infile = Continue evs st' infile' ->
  (List.length infile' < List.length infile)%nat.
Proof.
  unfold iteration. destruct infile as [|h rest]; simpl; [discriminate|].
  destruct (is_empty h); [discriminate|].
  unfold read_header. destruct (parse_int (strip h)) as [n|].
  - destruct (read_frame n _ rest) eqn:E; simpl; [discriminate|].
    intros E'. inversion E'; subst. apply read_frame_rest in E. lia.
  - pose proof (recover_rest rest (next_line_num st)) as H.
    destruct (recover _ _) as [[found st1] in1]. simpl in H.
    destruct found as [n|]; [|discriminate].
    destruct (read_frame n st1 in1) eqn:E; simpl; [discriminate|].
    intros E'. inversion E'; subst. apply read_frame_rest in E. lia.
Qed.

(** With more passes allowed than there are lines, the loop ends. *)
Lemma frames_total (fuel : nat) :
  forall st infile,
    (List.length infile < fuel)%nat ->
    exists evs st', frames fuel st infile = Some (evs, st').
Proof.
  induction fuel as [|fuel IH]; intros st infile H; [lia|].
  simpl. destruct (iteration st infile) as [evs st'|evs st' infile'] eqn:E.
  - eauto.
  - apply iteration_rest in E.
    destruct (IH st' infile') as (evs1 & st1 & E1); [lia|].
    rewrite E1. simpl. eauto.
Qed.

(** The result does not depend on the bound, once it is large enough. *)
Lemma frames_more_fuel (fuel : nat) :
  forall fuel' st infile r,
    frames fuel st infile = Some r -> (fuel <= fuel')%nat ->
    frames fuel' st infile = Some r.
Proof.
  induction fuel as [|fuel IH]; intros fuel' st infile r E H; [discriminate|].
  destruct fuel' as [|fuel']; [lia|].
  simpl in *. destruct (iteration st infile) as [evs st'|evs st' infile']; [exact E|].
  destruct (frames fuel st' infile') as [r1|] eqn:E1; [|discriminate].
  erewrite IH; eauto. lia.
Qed.

Lemma convert_frames (fuel : nat) (st : counters) (infile : stream) evs st' :
  frames fuel st infile = Some (evs, st') ->
  convert st infile = Some (evs ++ [final_record st'], st').
Proof.
  intros E. unfold convert.
  destruct (frames_total (S (List.length infile)) st infile) as (evs1 & st1 & E1); [lia|].
  rewrite E1.
  destruct (Nat.le_ge_cases fuel (S (List.length infile))) as [H|H].
  - rewrite (frames_more_fuel _ _ _ _ _ E H) in E1. now inversion E1.
  - rewrite (frames_more_fuel _ _ _ _ _ E1 H) in E. now inversion E.
Qed.

(** The conversion returns, from any counters and on every input. *)
Lemma convert_total (st : counters) (infile : stream) :
  exists evs st', convert st infile = Some (evs, st').
Proof.
  destruct (frames_total (S (List.length infile)) st infile) as (evs & st' & E); [lia|].
  rewrite (convert_frames _ _ _ _ _ E). eauto.
Qed.

(** ** The atom loop *)

Lemma writes_app (a b : list event) : writes (a ++ b) = writes a ++ writes b.
Proof.
  induction a as [|[r|d] a IH]; simpl; [reflexivity | now rewrite IH | exact IH].
Qed.

Lemma warnings_app (a b : list event) : warnings (a ++ b) = warnings a ++ warnings b.
Proof.
  induction a as [|[r|d] a IH]; simpl; [reflexivity | exact IH | now rewrite IH].
Qed.

Lemma emit_events (evs : list event) (r : result) :
  events_of (emit evs r) = evs ++ events_of r.
Proof.
  destruct r as [[evs' st] infile]. reflexivity.
Qed.

Lemma emit_counters (evs : list event) (r : result) :
  counters_of (emit evs r) = counters_of r.
Proof.
  destruct r as [[evs' st] infile]. reflexivity.
Qed.

(** The warning of lines 150-157 writes nothing. *)
Lemma serial_warning_writes (serial model : Z) : writes (serial_warning serial model) = [].
Proof.
  unfold serial_warning. destruct (99999 <? serial); reflexivity.
Qed.

(** One turn of the atom loop on a line that is there. *)
Lemma read_atoms_step (todo : nat) (i k : Z) (st : counters) (s : Z)
    (l : string) (rest : stream) :
  nonempty l ->
  read_atoms (S todo) i k st s (l :: rest) =
  match parse_atom_line l with
  | TooFewTokens =>
      emit [Warn (ShortAtomLine (line_num st + 1) (model_count st) (strip l))]
        (read_atoms todo (i + 1) k (next_line_num st) s rest)
  | NotAFloat tok =>
      emit [Warn (BadAtomLine (line_num st + 1) (model_count st) tok (strip l))]
        (read_atoms todo (i + 1) k (next_line_num st) s rest)
  | ParsedAtom element x y z =>
      emit (serial_warning (s + 1) (model_count st)
              ++ [Write (ATOM (make_atom (s + 1) element x y z))])
        (read_atoms todo (i + 1) k (next_atom (next_line_num st)) (s + 1) rest)
  end.
Proof.
  intros H. simpl. rewrite (is_empty_false _ H). reflexivity.
Qed.

Lemma parsed_nonempty (l : string) element x y z :
  parse_atom_line l = ParsedAtom element x y z -> nonempty l.
Proof.
  intros E ->. discriminate.
Qed.

(** Whatever the input, the atom loop writes only ATOM records, their
    serial numbers follow [s] one by one, and it leaves the model count. *)
Lemma read_atoms_writes (todo : nat) :
  forall i k st s infile,
    let r := read_atoms todo i k st s infile in
    exists atoms,
      writes (events_of r) = map ATOM atoms /\
      map atom_serial atoms = count_from (s + 1) (List.length atoms) /\
      Forall converted atoms /\
      model_count (counters_of r) = model_count st.
Proof.
  induction todo as [|todo IH]; intros i k st s infile; cbv zeta.
  - exists []. simpl. auto.
  - destruct infile as [|l rest].
    + exists []. simpl. auto.
    + destruct (string_dec l EmptyString) as [->|Hl].
      * exists []. simpl. auto.
      * rewrite (read_atoms_step _ _ _ _ _ _ _ Hl).
        destruct (parse_atom_line l) as [|tok|element x y z];
          rewrite emit_events, emit_counters, writes_app.
        -- destruct (IH (i + 1) k (next_line_num st) s rest) as (atoms & H1 & H2 & H3 & H4).
           exists atoms. simpl. auto.
        -- destruct (IH (i + 1) k (next_line_num st) s rest) as (atoms & H1 & H2 & H3 & H4).
           exists atoms. simpl. auto.
        -- destruct (IH (i + 1) k (next_atom (next_line_num st)) (s + 1) rest)
             as (atoms & H1 & H2 & H3 & H4).
           exists (make_atom (s + 1) element x y z :: atoms).
           rewrite writes_app, serial_warning_writes. simpl.
           rewrite H1, H2. repeat split; auto.
           constructor; [|exact H3]. unfold converted. eauto 6.
Qed.

(** On [todo] lines that are there, the atom loop reads exactly these. *)
Lemma read_atoms_exact (ls : list string) :
  forall i k st s rest,
    Forall nonempty ls ->
    let r := read_atoms (List.length ls) i k st s (ls ++ rest) in
    writes (events_of r) = map ATOM (valid_atoms s ls) /\
    model_count (counters_of r) = model_count st /\
    rest_of r = rest.
Proof.
  induction ls as [|l ls IH]; intros i k st s rest H; cbv zeta.
  - simpl. auto.
  - inversion H as [|? ? Hl Hls]; subst.
    simpl List.length. simpl app. rewrite (read_atoms_step _ _ _ _ _ _ _ Hl).
    simpl valid_atoms.
    destruct (parse_atom_line l) as [|tok|element x y z];
      rewrite emit_events, emit_counters, emit_rest, writes_app.
    + destruct (IH (i + 1) k (next_line_num st) s rest Hls) as (H1 & H2 & H3).
      simpl. auto.
    + destruct (IH (i + 1) k (next_line_num st) s rest Hls) as (H1 & H2 & H3).
      simpl. auto.
    + destruct (IH (i + 1) k (next_atom (next_line_num st)) (s + 1) rest Hls)
        as (H1 & H2 & H3).
      rewrite writes_app, serial_warning_writes. simpl. rewrite H1. auto.
Qed.


(** ** One pass of the frame loop *)

Lemma recover_model_count (infile : stream) :
  forall st, model_count (snd (fst (recover st infile))) = model_count st.
Proof.
  induction infile as [|l rest IH]; intros st; simpl; [reflexivity|].
  destruct (is_empty l); simpl; [reflexivity|].
  destruct (parse_int (strip l)); simpl; [reflexivity|].
  now rewrite IH.
Qed.

Lemma skip_lines_model_count (todo : nat) :
  forall st infile, model_count (fst (skip_lines todo st infile)) = model_count st.
Proof.
  induction todo as [|todo IH]; intros st infile; simpl; [reflexivity|].
  now rewrite IH.
Qed.

Lemma read_header_quiet (h : string) (st : counters) (infile : stream) w found st1 in1 :
  read_header h st infile = (w, found, st1, in1) ->
  writes w = [] /\ model_count st1 = model_count st.
Proof.
  unfold read_header. destruct (parse_int (strip h)) as [n|].
  - intros E. inversion E; subst. auto.
  - pose proof (recover_model_count infile st) as H.
    destruct (recover st infile) as [[f st'] in']. simpl in H.
    intros E. inversion E; subst. auto.
Qed.

Lemma read_frame_writes (n : Z) (st : counters) (infile : stream) :
  match read_frame n st infile with
  | Break evs st' => writes evs = [] /\ model_count st' = model_count st
  | Continue evs st' _ => pass_writes (model_count st) evs st'
  end.
Proof.
  unfold read_frame. destruct (n <=? 0).
  - pose proof (skip_lines_model_count (Z.to_nat n) (next_line_num st) (snd (readline infile))) as H.
    destruct (skip_lines _ _ _) as [st1 in1]. simpl in H.
    left. simpl. auto.
  - destruct (readline infile) as [c rest]. destruct (is_empty c).
    + simpl. auto.
    + pose proof (read_atoms_writes (Z.to_nat n) 0 n (next_model (next_line_num st)) 0 rest) as H.
      cbv zeta in H. destruct H as (atoms & H1 & H2 & H3 & H4).
      destruct (read_atoms _ _ _ _ _ _) as [[evs1 st1] in1].
      unfold events_of, counters_of in *. simpl in H1, H4.
      right. exists atoms. unfold block_records, numbered_from_one. simpl.
      rewrite writes_app, H1. simpl. auto.
Qed.

Lemma iteration_writes (st : counters) (infile : stream) :
  match iteration st infile with
  | Break evs st' => writes evs = [] /\ model_count st' = model_count st
  | Continue evs st' _ => pass_writes (model_count st) evs st'
  end.
Proof.
  unfold iteration. destruct (readline infile) as [h rest].
  destruct (is_empty h); [simpl; auto|].
  destruct (read_header h (next_line_num st) rest) as [[[w found] st1] in1] eqn:E.
  apply read_header_quiet in E. destruct E as [Ew Emc]. simpl in Emc.
  destruct found as [n|]; [|auto].
  pose proof (read_frame_writes n st1 in1) as H.
  destruct (read_frame n st1 in1) as [evs st'|evs st' infile']; simpl.
  - rewrite writes_app, Ew. rewrite <- Emc. exact H.
  - unfold pass_writes in *. rewrite writes_app, Ew. rewrite <- Emc. exact H.
Qed.

Lemma emit_pass_nil (p : pass) : emit_pass [] p = p.
Proof.
  destruct p; reflexivity.
Qed.

(** The pass that starts on a line that reads as an integer. *)
Lemma iteration_header (st : counters) (h : string) (rest : stream) (n : Z) :
  parse_int (strip h) = Some n ->
  iteration st (h :: rest) = read_frame n (next_line_num st) rest.
Proof.
  intros Hn. unfold iteration. simpl readline. cbv iota beta.
  rewrite (is_empty_false h) by (intros ->; discriminate).
  unfold read_header. rewrite Hn. apply emit_pass_nil.
Qed.

Lemma frames_step (fuel : nat) (st : counters) (infile : stream) :
  frames (S fuel) st infile =
  match iteration st infile with
  | Break evs st' => Some (evs, st')
  | Continue evs st' infile' => emit_opt evs (frames fuel st' infile')
  end.
Proof.
  reflexivity.
Qed.

(** ** The whole loop, on any input *)

(** The loop writes a sequence of whole MODEL blocks, numbered one by one
    after the model count it starts from; the atoms of each block are
    numbered from 1. *)
Lemma frames_blocks (fuel : nat) :
  forall st infile evs st',
    frames fuel st infile = Some (evs, st') ->
    exists blocks : list block,
      writes evs = flat_map block_records blocks /\
      map fst blocks = count_from (model_count st + 1) (List.length blocks) /\
      Forall (fun b => numbered_from_one (snd b) /\ Forall converted (snd b)) blocks /\
      model_count st' = model_count st + Z.of_nat (List.length blocks).
Proof.
  induction fuel as [|fuel IH]; intros st infile evs st' E; [discriminate|].
  simpl in E. pose proof (iteration_writes st infile) as H.
  destruct (iteration st infile) as [evs1 st1|evs1 st1 in1].
  - inversion E; subst. destruct H as [Hw Hmc].
    exists []. simpl. rewrite Z.add_0_r. auto.
  - destruct (frames fuel st1 in1) as [[evs2 st2]|] eqn:E2; [|discriminate].
    simpl in E. inversion E; subst.
    destruct (IH _ _ _ _ E2) as (blocks & B1 & B2 & B3 & B4).
    rewrite writes_app.
    destruct H as [[Hw Hmc]|(atoms & Hw & Hn & Hc & Hmc)].
    + exists blocks. rewrite Hw, Hmc in *. auto.
    + exists ((model_count st + 1, atoms) :: blocks).
      rewrite Hw, Hmc in *. simpl. rewrite B1, B2.
      repeat split; auto.
      rewrite B4. lia.
Qed.

(** ** Input made of whole frames *)

Lemma parse_int_nonempty (h : string) (k : Z) :
  parse_int (strip h) = Some k -> nonempty h.
Proof.
  intros E ->. discriminate.
Qed.

Lemma atom_line_ok_parsed (l : string) :
  atom_line_ok l = true <->
  exists element x y z, parse_atom_line l = ParsedAtom element x y z.
Proof.
  unfold atom_line_ok, parse_atom_line, parseable.
  destruct (split l) as [|e [|p1 [|p2 [|p3 more]]]];
    try (split; [discriminate | intros (? & ? & ? & ? & ?); discriminate]).
  destruct (parse_float p1), (parse_float p2), (parse_float p3); simpl;
    try (split; [discriminate | intros (? & ? & ? & ? & ?); discriminate]).
  split; eauto.
Qed.

Lemma valid_atoms_all_ok (ls : list string) :
  forall s,
    forallb atom_line_ok ls = true ->
    List.length (valid_atoms s ls) = List.length ls.
Proof.
  induction ls as [|l ls IH]; intros s H; simpl in *; [reflexivity|].
  apply andb_prop in H. destruct H as [Hl Hls].
  apply atom_line_ok_parsed in Hl. destruct Hl as (e & x & y & z & ->).
  simpl. now rewrite IH.
Qed.

(** The pass over a frame that is all there writes its MODEL block and
    leaves the input at the next frame. *)
Lemma iteration_framed (f : frame) (st : counters) (rest : stream) :
  framed f ->
  exists evs st',
    iteration st (frame_lines f ++ rest) = Continue evs st' rest /\
    writes evs = block_records (model_count st + 1, frame_atoms f) /\
    model_count st' = model_count st + 1.
Proof.
  intros (k & Hk & Hpos & Hlen & Hc & Hls).
  unfold iteration, frame_lines. simpl.
  rewrite (is_empty_false _ (parse_int_nonempty _ _ Hk)).
  unfold read_header. rewrite Hk.
  unfold read_frame. replace (k <=? 0) with false by (symmetry; apply Z.leb_gt; lia).
  simpl. rewrite (is_empty_false _ Hc).
  replace (Z.to_nat k) with (List.length (atom_lines f)) by lia.
  pose proof (read_atoms_exact (atom_lines f) 0 k (next_model (next_line_num (next_line_num st)))
                0 rest Hls) as H.
  cbv zeta in H. destruct H as (H1 & H2 & H3).
  destruct (read_atoms _ _ _ _ _ _) as [[evs1 st1] in1].
  unfold events_of, counters_of, rest_of in *. simpl in H1, H2, H3. subst in1.
  simpl. eexists _, _. split; [reflexivity|].
  unfold block_records, frame_atoms. simpl.
  rewrite writes_app, H1. simpl. auto.
Qed.

Lemma frames_framed (fs : list frame) :
  forall fuel st,
    Forall framed fs ->
    (List.length (flat_map frame_lines fs) < fuel)%nat ->
    exists evs st',
      frames fuel st (flat_map frame_lines fs) = Some (evs, st') /\
      writes evs = model_blocks (model_count st + 1) fs /\
      model_count st' = model_count st + Z.of_nat (List.length fs).
Proof.
  induction fs as [|f fs IH]; intros fuel st H Hfuel.
  - destruct fuel as [|fuel]; [simpl in Hfuel; lia|].
    simpl. eexists _, _. split; [reflexivity|]. simpl. split; [reflexivity | lia].
  - inversion H as [|? ? Hf Hfs]; subst.
    destruct fuel as [|fuel]; [lia|].
    cbn [flat_map] in *.
    destruct (iteration_framed f st (flat_map frame_lines fs) Hf) as (evs1 & st1 & E1 & W1 & M1).
    cbn [frames]. rewrite E1.
    rewrite length_app in Hfuel. unfold frame_lines in Hfuel at 1. simpl in Hfuel.
    destruct (IH fuel st1 Hfs ltac:(lia)) as (evs2 & st2 & E2 & W2 & M2).
    rewrite E2. simpl. eexists _, _. split; [reflexivity|].
    rewrite writes_app, W1, W2, M1, M2.
    split; [reflexivity|]. simpl List.length. lia.
Qed.

Lemma well_formed_framed (f : frame) :
  well_formed f -> Forall nonempty (frame_lines f) -> framed f.
Proof.
  unfold well_formed, well_formedb, framed. intros H Hne.
  destruct (parse_int (strip (header f))) as [k|]; [|discriminate].
  apply andb_prop in H. destruct H as [H H3].
  apply andb_prop in H. destruct H as [H1 H2].
  apply Z.ltb_lt in H1. apply Z.eqb_eq in H2.
  unfold frame_lines in Hne.
  apply Forall_cons_iff in Hne. destruct Hne as [_ Hne].
  apply Forall_cons_iff in Hne. destruct Hne as [Hc Hls].
  exists k. auto.
Qed.

Lemma Forall_flat_map_frames (P : string -> Prop) (fs : list frame) :
  Forall P (flat_map frame_lines fs) -> Forall (fun f => Forall P (frame_lines f)) fs.
Proof.
  induction fs as [|f fs IH]; intros H; constructor.
  - cbn [flat_map] in H. apply Forall_app in H. tauto.
  - cbn [flat_map] in H. apply Forall_app in H. apply IH. tauto.
Qed.

(** C1: on an input made of N well-formed frames, [xyz_to_pdb] writes N
    MODEL blocks in the order of the frames, the i-th being [MODEL i], one
    ATOM record for each of the atom lines the frame declares, and
    [ENDMDL]; one [END] follows the last block. *)
Theorem well_formed_input_blocks (content : string) (fs : list frame) :
  file_lines content = flat_map frame_lines fs ->
  Forall well_formed fs ->
  exists evs st,
    xyz_to_pdb content = Some (evs, st) /\
    writes evs = model_blocks 1 fs ++ match fs with [] => [] | _ => [END] end /\
    Forall (fun f => Z.of_nat (List.length (frame_atoms f)) = declared_atoms f
                     /\ 0 < declared_atoms f) fs /\
    model_count st = Z.of_nat (List.length fs).
Proof.
  intros Hlines Hwf.
  pose proof (file_lines_nonempty content) as Hne. rewrite Hlines in Hne.
  apply Forall_flat_map_frames in Hne.
  assert (Hfr : Forall framed fs).
  { rewrite Forall_forall in *. intros f Hf. apply well_formed_framed; auto. }
  destruct (frames_framed fs (S (List.length (flat_map frame_lines fs))) initial Hfr
              ltac:(lia)) as (evs & st & E & W & M).
  unfold xyz_to_pdb. rewrite Hlines, (convert_frames _ _ _ _ _ E).
  eexists _, _. split; [reflexivity|].
  rewrite writes_app, W. simpl in M. unfold final_record. rewrite M.
  split; [|split].
  - destruct fs as [|f fs]; [reflexivity|].
    replace (0 <? Z.of_nat (List.length (f :: fs))) with true
      by (symmetry; apply Z.ltb_lt; simpl List.length; lia).
    reflexivity.
  - rewrite Forall_forall in *. intros f Hf. specialize (Hwf f Hf).
    unfold well_formed, well_formedb in Hwf. unfold declared_atoms, frame_atoms.
    destruct (parse_int (strip (header f))) as [k|]; [|discriminate].
    apply andb_prop in Hwf. destruct Hwf as [Hwf H3].
    apply andb_prop in Hwf. destruct Hwf as [H1 H2].
    apply Z.ltb_lt in H1. apply Z.eqb_eq in H2.
    rewrite (valid_atoms_all_ok _ _ H3). auto.
  - reflexivity.
Qed.

(** ** Serial numbers *)

(** C5: whatever the input, the output is a sequence of MODEL blocks (and
    [END] after the last one), and in every block the serial numbers of the
    ATOM records are 1, 2, 3, ... in order: a line that is skipped writes no
    record and leaves no gap, and the numbering starts again at 1 in every
    block. *)
Theorem serials_count_from_one_in_every_model (content : string) :
  exists evs st (blocks : list block),
    xyz_to_pdb content = Some (evs, st) /\
    writes evs = flat_map block_records blocks ++ match blocks with [] => [] | _ => [END] end /\
    Forall (fun b => map atom_serial (snd b) = count_from 1 (List.length (snd b))) blocks.
Proof.
  unfold xyz_to_pdb.
  destruct (frames_total (S (List.length (file_lines content))) initial (file_lines content))
    as (evs & st & E); [lia|].
  destruct (frames_blocks _ _ _ _ _ E) as (blocks & B1 & B2 & B3 & B4).
  rewrite (convert_frames _ _ _ _ _ E).
  exists (evs ++ [final_record st]), st, blocks.
  split; [reflexivity|]. split.
  - rewrite writes_app, B1. unfold final_record. rewrite B4. simpl model_count.
    destruct blocks as [|b blocks]; [reflexivity|].
    replace (0 <? 0 + Z.of_nat (List.length (b :: blocks))) with true
      by (symmetry; apply Z.ltb_lt; simpl List.length; lia).
    reflexivity.
  - rewrite Forall_forall in *. intros b Hb. apply (B3 b Hb).
Qed.

(** ** End of input inside a frame *)


(** ** Frames without atoms *)

(** Lines 91-99, however the atom count was found: one warning, one line
    read, no atom line read, nothing written, and back to the top of the
    loop. *)
Lemma read_frame_nonpositive (n : Z) (st : counters) (infile : stream) :
  n <= 0 ->
  read_frame n st infile =
  Continue [Warn (NonPositiveAtomCount n (line_num st))] (next_line_num st) (tl infile).
Proof.
  intros Hle. unfold read_frame.
  replace (n <=? 0) with true by (symmetry; apply Z.leb_le; lia).
  replace (Z.to_nat n) with 0%nat by lia.
  cbn [skip_lines]. destruct infile; reflexivity.
Qed.

(** A frame whose header is read at the top of the loop (line 65) and
    reads as an atom count of zero or less gets the message of line 92 and
    nothing else: the run goes on with the line after the comment line as
    the next header, as if the input began there, two lines further in the
    line count. *)
Theorem nonpositive_frame_is_skipped (st : counters) (h : string) (rest : stream) (n : Z) :
  parse_int (strip h) = Some n ->
  n <= 0 ->
  exists evs st',
    convert (mk_counters (model_count st) (line_num st + 1 + 1) (processed_atoms_total st))
      (tl rest) = Some (evs, st') /\
    convert st (h :: rest) =
      Some (Warn (NonPositiveAtomCount n (line_num st + 1)) :: evs, st').
Proof.
  intros Hn Hle.
  set (st2 := mk_counters (model_count st) (line_num st + 1 + 1) (processed_atoms_total st)).
  destruct (frames_total (S (List.length (tl rest))) st2 (tl rest)) as (evs & st' & E); [lia|].
  exists (evs ++ [final_record st']), st'. split.
  - exact (convert_frames _ _ _ _ _ E).
  - assert (E' : frames (S (S (List.length (tl rest)))) st (h :: rest)
                 = Some (Warn (NonPositiveAtomCount n (line_num st + 1)) :: evs, st')).
    { rewrite frames_step, (iteration_header _ _ _ _ Hn), (read_frame_nonpositive _ _ _ Hle).
      change (next_line_num (next_line_num st)) with st2.
      rewrite E. reflexivity. }
    rewrite (convert_frames _ _ _ _ _ E'). reflexivity.
Qed.

(** ** The search after a header that is not an integer *)

(** After the search of lines 75-86 has found an atom count, two lines are
    read before the atom lines: one at line 83 and one at line 102. *)
Lemma recovered_frame_reads_two_lines
    (st : counters) (bad h c1 c2 : string) (rest : stream) (k : Z) :
  nonempty bad ->
  parse_int (strip bad) = None ->
  parse_int (strip h) = Some k ->
  0 < k ->
  nonempty c2 ->
  iteration st (bad :: h :: c1 :: c2 :: rest) =
  let st4 := next_line_num (next_line_num (next_line_num (next_line_num st))) in
  let r := read_atoms (Z.to_nat k) 0 k (next_model st4) 0 rest in
  Continue
    (Warn (InvalidAtomCount (line_num st + 1) (strip bad))
       :: Write (MODEL (model_count st + 1)) :: events_of r ++ [Write ENDMDL])
    (counters_of r) (rest_of r).
Proof.
  intros Hbad Hnone Hk Hpos Hc2.
  unfold iteration. simpl readline. cbv iota beta.
  rewrite (is_empty_false _ Hbad).
  unfold read_header. rewrite Hnone.
  cbn [recover]. rewrite (is_empty_false _ (parse_int_nonempty _ _ Hk)), Hk.
  simpl readline. cbv iota beta. cbn [snd].
  unfold read_frame. replace (k <=? 0) with false by (symmetry; apply Z.leb_gt; lia).
  simpl readline. cbv iota beta. rewrite (is_empty_false _ Hc2).
  cbv zeta.
  destruct (read_atoms _ _ _ _ _ _) as [[evs1 st1] in1].
  reflexivity.
Qed.

(** When the atom count found by the search of lines 75-86 is zero or
    less, two lines are dropped after it: one at line 83 and one at line
    94; the line after the comment line is not read as a header. *)
Lemma recovered_nonpositive_count_drops_two_lines
    (st : counters) (bad h c1 c2 : string) (rest : stream) (n : Z) :
  nonempty bad ->
  parse_int (strip bad) = None ->
  parse_int (strip h) = Some n ->
  n <= 0 ->
  iteration st (bad :: h :: c1 :: c2 :: rest) =
  Continue
    [Warn (InvalidAtomCount (line_num st + 1) (strip bad));
     Warn (NonPositiveAtomCount n (line_num st + 1 + 1 + 1))]
    (next_line_num (next_line_num (next_line_num (next_line_num st)))) rest.
Proof.
  intros Hbad Hnone Hn Hle.
  unfold iteration. simpl readline. cbv iota beta.
  rewrite (is_empty_false _ Hbad).
  unfold read_header. rewrite Hnone.
  cbn [recover]. rewrite (is_empty_false _ (parse_int_nonempty _ _ Hn)), Hn.
  simpl readline. cbv iota beta. cbn [snd].
  rewrite (read_frame_nonpositive _ _ _ Hle). reflexivity.
Qed.

(** C7: on [x / 0 / comment / 1 / c / H 1 2 3] the search finds the atom
    count 0 and reads the comment (line 83); lines 91-99 then read one more
    line, the header [1] of the next frame, so that frame is lost and
    nothing is written.  Without the first line the same two frames give
    the MODEL block of the second. *)
Theorem recovered_empty_frame_swallows_next_header :
  xyz_to_pdb recovered_empty_frame_input =
    Some ([Warn (InvalidAtomCount 1 "x");
           Warn (NonPositiveAtomCount 0 3);
           Warn (InvalidAtomCount 5 "c");
           Warn NoValidFrames],
          mk_counters 0 7 0) /\
  xyz_to_pdb empty_frame_input =
    Some ([Warn (NonPositiveAtomCount 0 1);
           Write (MODEL 1);
           Write (ATOM (make_atom 1 "H" f_1 f_2 f_3));
           Write ENDMDL;
           Write END],
          mk_counters 1 6 1).
Proof.
  split; vm_compute; reflexivity.
Qed.

(** C3: on [x / 2 / frame1 / C 0.0 0.0 0.0 / O 1.5 0.0 0.0] the search
    finds the atom count 2 and reads the comment; the first atom line is
    then read as a comment again, and the only ATOM record is the one of the
    second atom line. *)
Theorem recovery_loses_first_atom_line :
  exists x y z,
    xyz_to_pdb recovery_input =
    Some ([Warn (InvalidAtomCount 1 "x");
           Write (MODEL 1);
           Write (ATOM (make_atom 1 "O" x y z));
           Warn (EofInFrame 1 2 1);
           Write ENDMDL;
           Write END],
          mk_counters 1 7 1) /\
    parse_float "1.5" = Some x.
Proof.
  eexists _, _, _. split; vm_compute; reflexivity.
Qed.

(** ** Atom lines that are skipped *)

Lemma malformed_parse (l : string) :
  match parse_atom_line l with
  | ParsedAtom _ _ _ _ => malformed l = false
  | _ => malformed l = true
  end.
Proof.
  unfold malformed, parse_atom_line, parseable.
  destruct (split l) as [|e [|p1 [|p2 [|p3 more]]]]; try reflexivity.
  simpl.
  destruct (parse_float p1); simpl; [|reflexivity].
  destruct (parse_float p2); simpl; [|reflexivity].
  destruct (parse_float p3); reflexivity.
Qed.

(** C4, as amended: a line of a frame is skipped, with a warning and
    without an ATOM record, exactly when it has fewer than four tokens or
    its second, third or fourth token is not a number; further tokens are
    not looked at.  The turn of the loop is used up either way, and only a
    written atom moves the serial number. *)
Theorem malformed_line_is_skipped
    (todo : nat) (i k : Z) (st : counters) (s : Z) (l : string) (rest : stream) :
  nonempty l ->
  if malformed l then
    exists d,
      read_atoms (S todo) i k st s (l :: rest) =
      emit [Warn d] (read_atoms todo (i + 1) k (next_line_num st) s rest)
  else
    exists w a,
      writes w = [] /\ atom_serial a = s + 1 /\
      read_atoms (S todo) i k st s (l :: rest) =
      emit (w ++ [Write (ATOM a)])
        (read_atoms todo (i + 1) k (next_atom (next_line_num st)) (s + 1) rest).
Proof.
  intros Hl. rewrite (read_atoms_step _ _ _ _ _ _ _ Hl).
  pose proof (malformed_parse l) as H.
  destruct (parse_atom_line l) as [|tok|e x y z]; rewrite H.
  - eauto.
  - eauto.
  - eexists _, _. split; [apply serial_warning_writes|]. split; [|reflexivity].
    reflexivity.
Qed.

(** C4, the claim as worded: [C 1 2 3 x] has a last token that is not a
    number, and is written all the same. *)
Lemma last_three_tokens_counterexample :
  malformed_by_last_three five_token_line = true /\
  exists a, writes (events_of (read_atoms 1 0 1 initial 0 [five_token_line])) = [ATOM a].
Proof.
  split; [vm_compute; reflexivity|].
  eexists. vm_compute. reflexivity.
Qed.

(** ** The layout of an ATOM line *)

Lemma string_app_nil_r (s : string) : (s ++ EmptyString)%string = s.
Proof.
  induction s as [|c s IH]; simpl; [reflexivity | now rewrite IH].
Qed.

Lemma ljust_long (w : nat) (s : string) :
  (w <= String.length s)%nat -> ljust w s = s.
Proof.
  intros H. unfold ljust.
  replace (w - String.length s)%nat with 0%nat by lia. apply string_app_nil_r.
Qed.

Lemma ljust_length (w : nat) (s : string) :
  String.length (ljust w s) = Nat.max w (String.length s).
Proof.
  unfold ljust. rewrite string_app_length, spaces_length. lia.
Qed.

(** The pieces of an ATOM line from left to right. *)
Lemma format_pdb_line_layout
    (serial : Z) (name res chain : string) (seq : Z)
    (x y z occ tf : spec_float) (element : string) :
  format_pdb_line serial name res chain seq x y z occ tf element =
  ("ATOM  " ++ rjust 5 (dec serial) ++ "  " ++ ljust 3 name
   ++ ljust 3 res ++ " " ++ chain ++ rjust 4 (dec seq) ++ "    "
   ++ rjust 8 (format_f 3 x) ++ rjust 8 (format_f 3 y) ++ rjust 8 (format_f 3 z)
   ++ rjust 6 (format_f 2 occ) ++ rjust 6 (format_f 2 tf)
   ++ "          " ++ rjust 2 element ++ "  " ++ nl)%string.
Proof.
  unfold format_pdb_line.
  rewrite (ljust_long 4 (" " ++ ljust 3 name)%string)
    by (simpl; rewrite ljust_length; lia).
  repeat rewrite string_app_assoc. reflexivity.
Qed.

(** C8: the float that [1.23456] reads as is formatted as [   1.235] in the
    place of x, whatever the other arguments. *)
Theorem x_field_of_1_23456 :
  parse_float "1.23456" = Some x_1_23456 /\
  Prim2SF 0x1.3c0c1fc8f3238p+0%float = x_1_23456 /\
  forall (serial : Z) (name res chain : string) (seq : Z)
         (y z occ tf : spec_float) (element : string),
    format_pdb_line serial name res chain seq x_1_23456 y z occ tf element =
    ("ATOM  " ++ rjust 5 (dec serial) ++ "  " ++ ljust 3 name
     ++ ljust 3 res ++ " " ++ chain ++ rjust 4 (dec seq) ++ "    "
     ++ "   1.235" ++ rjust 8 (format_f 3 y) ++ rjust 8 (format_f 3 z)
     ++ rjust 6 (format_f 2 occ) ++ rjust 6 (format_f 2 tf)
     ++ "          " ++ rjust 2 element ++ "  " ++ nl)%string.
Proof.
  split; [vm_compute; reflexivity|]. split; [vm_compute; reflexivity|].
  intros. rewrite format_pdb_line_layout.
  replace (rjust 8 (format_f 3 x_1_23456)) with "   1.235"%string
    by (vm_compute; reflexivity).
  reflexivity.
Qed.

(** C2: on the atom [C 1.5 0.0 0.0] with serial number 1 the line has 79
    characters before its newline; x, y and z stand in columns 30-37, 38-45
    and 46-53 and the element symbol in columns 76-77 (a column [c] is the
    character at index [c - 1]). *)
Theorem coordinate_columns_are_one_to_the_left :
  parse_float "1.5" = Some f_1_5 /\
  parse_float "0.0" = Some f_0 /\
  column_example =
    ("ATOM      1  C  MOL A   1       1.500   0.000   0.000  1.00  0.00           C  "
     ++ nl)%string /\
  substring 29 8 column_example = "   1.500"%string /\
  substring 37 8 column_example = "   0.000"%string /\
  substring 45 8 column_example = "   0.000"%string /\
  substring 75 2 column_example = " C"%string /\
  substring 30 8 column_example = "  1.500 "%string /\
  substring 76 2 column_example = "C "%string /\
  String.length column_example = 80%nat.
Proof.
  repeat split; vm_compute; reflexivity.
Qed.

(** Whatever the coordinates, the text in front of the x field of the line
    of an atom with a serial number of one digit and a name of one letter
    has 29 characters. *)
Lemma x_field_starts_at_column_30 (x y z : spec_float) :
  format_pdb_line 1 "C" "MOL" "A" 1 x y z float_one float_zero "C" =
  ("ATOM      1  C  MOL A   1    "
   ++ rjust 8 (format_f 3 x) ++ rjust 8 (format_f 3 y) ++ rjust 8 (format_f 3 z)
   ++ "  1.00  0.00           C  " ++ nl)%string
  /\ String.length "ATOM      1  C  MOL A   1    " = 29%nat.
Proof.
  split; [|reflexivity].
  rewrite format_pdb_line_layout.
  change (rjust 6 (format_f 2 float_one)) with "  1.00"%string.
  change (rjust 6 (format_f 2 float_zero)) with "  0.00"%string.
  change (rjust 5 (dec 1)) with "    1"%string.
  change (rjust 4 (dec 1)) with "   1"%string.
  reflexivity.
Qed.

(** ** The element symbol *)

Lemma block_records_short (b : block) :
  Forall converted (snd b) -> Forall short_element (block_records b).
Proof.
  intros H. unfold block_records. constructor; [exact I|].
  apply Forall_app. split; [|repeat constructor].
  apply Forall_map. rewrite Forall_forall in *. intros a Ha.
  destruct (H a Ha) as (serial & e & x & y & z & ->).
  simpl. apply take_length.
Qed.

(** C9, as amended: the formatter pads the element symbol to two
    characters and writes the whole of a longer one; the symbols of the
    ATOM records that [xyz_to_pdb] writes have at most two characters,
    because it is [xyz_to_pdb] that cuts them (line 169). *)
Theorem element_symbol_cut_by_converter :
  (forall (serial : Z) (name res chain : string) (seq : Z)
          (x y z occ tf : spec_float) (element : string),
      format_pdb_line serial name res chain seq x y z occ tf element =
      ("ATOM  " ++ rjust 5 (dec serial) ++ "  " ++ ljust 3 name
       ++ ljust 3 res ++ " " ++ chain ++ rjust 4 (dec seq) ++ "    "
       ++ rjust 8 (format_f 3 x) ++ rjust 8 (format_f 3 y) ++ rjust 8 (format_f 3 z)
       ++ rjust 6 (format_f 2 occ) ++ rjust 6 (format_f 2 tf)
       ++ "          " ++ spaces (2 - String.length element) ++ element
       ++ "  " ++ nl)%string) /\
  (forall content : string,
      exists evs st,
        xyz_to_pdb content = Some (evs, st) /\
        Forall short_element (writes evs)).
Proof.
  split.
  - intros. rewrite format_pdb_line_layout. unfold rjust at 8.
    repeat rewrite string_app_assoc. reflexivity.
  - intros content. unfold xyz_to_pdb.
    destruct (frames_total (S (List.length (file_lines content))) initial (file_lines content))
      as (evs & st & E); [lia|].
    destruct (frames_blocks _ _ _ _ _ E) as (blocks & B1 & B2 & B3 & B4).
    rewrite (convert_frames _ _ _ _ _ E).
    eexists _, _. split; [reflexivity|].
    rewrite writes_app, B1. apply Forall_app. split.
    + clear B1 B2 B4. induction blocks as [|b blocks IH]; cbn [flat_map]; [constructor|].
      apply Forall_cons_iff in B3. destruct B3 as [[_ Hb] B3].
      apply Forall_app. split; [apply block_records_short; exact Hb | apply IH; exact B3].
    + unfold final_record. destruct (0 <? model_count st); simpl; repeat constructor.
Qed.

(** C9, the claim as worded: the formatter writes the three letters of
    [ABC], and not the line of [AB]. *)
Lemma formatter_keeps_long_symbol :
  three_letter_example =
    ("ATOM      1  C  MOL A   1       0.000   0.000   0.000  1.00  0.00          ABC  "
     ++ nl)%string /\
  three_letter_example <>
    format_pdb_line 1 "C" "MOL" "A" 1 f_0 f_0 f_0 float_one float_zero (take 2 "ABC").
Proof.
  split; [vm_compute; reflexivity|].
  vm_compute. discriminate.
Qed.

(** C10: for an atom line that parses, the ATOM record has the first token
    of the line as its atom name, in the case it was written in, and the
    first two characters of the upper-cased token as its element symbol;
    both stand in the line that is written. *)
Theorem element_symbol_is_upper_cased_first_token
    (todo : nat) (i k : Z) (st : counters) (s : Z) (l : string) (rest : stream)
    (element : string) (x y z : spec_float) :
  parse_atom_line l = ParsedAtom element x y z ->
  hd_error (split l) = Some element /\
  exists w a,
    read_atoms (S todo) i k st s (l :: rest) =
      emit (w ++ [Write (ATOM a)])
        (read_atoms todo (i + 1) k (next_atom (next_line_num st)) (s + 1) rest) /\
    writes w = [] /\
    atom_name a = element /\
    element_sym a = take 2 (upper element) /\
    render (ATOM a) =
      ("ATOM  " ++ rjust 5 (dec (s + 1)) ++ "  " ++ ljust 3 element
       ++ "MOL" ++ " " ++ "A" ++ "   1" ++ "    "
       ++ rjust 8 (format_f 3 x) ++ rjust 8 (format_f 3 y) ++ rjust 8 (format_f 3 z)
       ++ "  1.00" ++ "  0.00"
       ++ "          " ++ rjust 2 (take 2 (upper element)) ++ "  " ++ nl)%string.
Proof.
  intros E. split.
  - unfold parse_atom_line in E.
    destruct (split l) as [|e [|p1 [|p2 [|p3 more]]]]; try discriminate.
    destruct (parse_float p1); [|discriminate].
    destruct (parse_float p2); [|discriminate].
    destruct (parse_float p3); [|discriminate].
    inversion E; subst. reflexivity.
  - rewrite (read_atoms_step _ _ _ _ _ _ _ (parsed_nonempty _ _ _ _ _ E)), E.
    eexists _, _. split; [reflexivity|].
    split; [apply serial_warning_writes|].
    split; [reflexivity|]. split; [reflexivity|].
    cbn [render make_atom atom_serial atom_name res_name chain_id res_seq
         coord_x coord_y coord_z occupancy temp_factor element_sym].
    rewrite format_pdb_line_layout. reflexivity.
Qed.

(** ** The properties at concrete inputs *)

(** The example of the specification: one frame of two atoms. *)
Lemma two_atom_example_text :
  option_map (fun r => pdb_text (fst r)) (xyz_to_pdb two_atom_input) =
  Some (line "MODEL        1"
        ++ line "ATOM      1  C  MOL A   1       0.000   0.000   0.000  1.00  0.00           C  "
        ++ line "ATOM      2  O  MOL A   1       1.500   0.000   0.000  1.00  0.00           O  "
        ++ line "ENDMDL"
        ++ line "END")%string.
Proof.
  vm_compute. reflexivity.
Qed.

Lemma well_formed_input_blocks_witness :
  file_lines two_atom_input = flat_map frame_lines [two_atom_frame] /\
  Forall well_formed [two_atom_frame] /\
  exists evs st,
    xyz_to_pdb two_atom_input = Some (evs, st) /\
    writes evs = model_blocks 1 [two_atom_frame] ++ [END] /\
    Forall (fun f => Z.of_nat (List.length (frame_atoms f)) = declared_atoms f
                     /\ 0 < declared_atoms f) [two_atom_frame] /\
    model_count st = 1.
Proof.
  assert (H1 : file_lines two_atom_input = flat_map frame_lines [two_atom_frame])
    by (vm_compute; reflexivity).
  assert (H2 : Forall well_formed [two_atom_frame])
    by (repeat constructor).
  split; [exact H1|]. split; [exact H2|].
  exact (well_formed_input_blocks two_atom_input [two_atom_frame] H1 H2).
Defined.


Lemma nonpositive_frame_is_skipped_witness :
  exists evs st',
    convert (mk_counters 0 2 0) [line "1"; line "second"; line "H 1 2 3"]
      = Some (evs, st') /\
    convert initial [line "0"; line "first"; line "1"; line "second"; line "H 1 2 3"]
      = Some (Warn (NonPositiveAtomCount 0 1) :: evs, st').
Proof.
  apply (nonpositive_frame_is_skipped initial (line "0")
           [line "first"; line "1"; line "second"; line "H 1 2 3"] 0).
  - vm_compute. reflexivity.
  - lia.
Defined.

Lemma malformed_line_is_skipped_witness :
  exists d,
    read_atoms 2 0 2 initial 0 [line "C 1.0 oops 3.0"; line "O 1 2 3"] =
    emit [Warn d] (read_atoms 1 1 2 (next_line_num initial) 0 [line "O 1 2 3"]).
Proof.
  apply (malformed_line_is_skipped 1 0 2 initial 0 (line "C 1.0 oops 3.0") [line "O 1 2 3"]).
  discriminate.
Defined.

Lemma element_symbol_is_upper_cased_first_token_witness :
  hd_error (split (line "fe 1 2 3")) = Some "fe"%string /\
  exists w a,
    read_atoms 1 0 1 initial 0 [line "fe 1 2 3"] =
      emit (w ++ [Write (ATOM a)])
        (read_atoms 0 1 1 (next_atom (next_line_num initial)) 1 []) /\
    writes w = [] /\
    atom_name a = "fe"%string /\
    element_sym a = "FE"%string /\
    render (ATOM a) =
      ("ATOM  " ++ "    1" ++ "  " ++ "fe "
       ++ "MOL" ++ " " ++ "A" ++ "   1" ++ "    "
       ++ "   1.000" ++ "   2.000" ++ "   3.000"
       ++ "  1.00" ++ "  0.00"
       ++ "          " ++ "FE" ++ "  " ++ nl)%string.
Proof.
  apply (element_symbol_is_upper_cased_first_token 0 0 1 initial 0
           (line "fe 1 2 3") [] "fe" f_1 f_2 f_3).
  vm_compute. reflexivity.
Defined.

(** [int] and [float] on some strings, and the floats of the parser against
    the floats of the kernel. *)
Lemma number_parsing_examples :
  map parse_int [" 12 "; "-3"; "+0"; "1_000"; "007"; "1__0"; "_1"; "1_"; EmptyString; "+"; "1.0"; "- 1"]%string
    = [Some 12; Some (-3); Some 0; Some 1000; Some 7; None; None; None; None; None; None; None]
  /\ map (fun t => is_some (parse_float t))
       ["1"; "-.5"; "5."; "1e5"; "1_0.5E-1_0"; "inf"; "-Infinity"; "NaN";
        "."; "e5"; "1e"; "1_.5"; "0x10"; "--1"; "1,5"; "abc"]%string
    = [true; true; true; true; true; true; true; true;
       false; false; false; false; false; false; false; false]
  /\ parse_float "0.1" = Some (Prim2SF 0x1.999999999999ap-4%float)
  /\ parse_float "1e23" = Some (Prim2SF 0x1.52d02c7e14af6p+76%float)
  /\ parse_float "5e-324" = Some (Prim2SF 0x0.0000000000001p-1022%float)
  /\ parse_float "2.2250738585072011e-308" = Some (Prim2SF 0x0.fffffffffffffp-1022%float)
  /\ parse_float "1.7976931348623157e308" = Some (Prim2SF 0x1.fffffffffffffp+1023%float)
  /\ parse_float "1.7976931348623159e308" = Some (S754_infinity false)
  /\ parse_float "9007199254740993" = Some (Prim2SF 0x1p+53%float)
  /\ map (format_f 3) [f_0; f_1_5; x_1_23456; S754_zero true; S754_nan; S754_infinity true]
     = ["0.000"; "1.500"; "1.235"; "-0.000"; "nan"; "-inf"]%string
  /\ option_map (format_f 3) (parse_float "0.0625") = Some "0.062"%string
  /\ option_map (format_f 3) (parse_float "0.0005") = Some "0.001"%string
  /\ option_map (format_f 3) (parse_float "-12345.6789") = Some "-12345.679"%string
  /\ option_map (format_f 2) (parse_float "2.675") = Some "2.67"%string.
Proof.
  repeat split; vm_compute; reflexivity.
Qed.

(** * Further properties *)

(** ** The width of an ATOM line *)

Lemma rjust_width (w : nat) (s : string) :
  String.length (rjust w s) = Nat.max w (String.length s).
Proof.
  unfold rjust. rewrite string_app_length, spaces_length. lia.
Qed.

(** No field is ever cut: the line has 26 fixed characters and, for every
    value, the larger of its width and the length of its text. *)
Lemma format_pdb_line_length
    (serial : Z) (name res chain : string) (seq : Z)
    (x y z occ tf : spec_float) (element : string) :
  String.length (format_pdb_line serial name res chain seq x y z occ tf element)
  = atom_line_length serial name res chain seq x y z occ tf element.
Proof.
  rewrite format_pdb_line_layout. unfold atom_line_length.
  repeat rewrite string_app_length. repeat rewrite rjust_width.
  repeat rewrite ljust_length. simpl String.length. lia.
Qed.

(** X1: the formatter cuts no value and pads every one: with a chain identifier
    of one character the line is never shorter than 80 characters with its
    newline, and it has 80 exactly when every value fits the width of its
    field. *)
Theorem atom_line_is_80_wide_iff_values_fit
    (serial : Z) (name res chain : string) (seq : Z)
    (x y z occ tf : spec_float) (element : string) :
  String.length chain = 1%nat ->
  (80 <= String.length
           (format_pdb_line serial name res chain seq x y z occ tf element))%nat /\
  (String.length (format_pdb_line serial name res chain seq x y z occ tf element) = 80%nat
   <->
   (String.length (dec serial) <= 5 /\ String.length name <= 3 /\
    String.length res <= 3 /\ String.length (dec seq) <= 4 /\
    String.length (format_f 3 x) <= 8 /\ String.length (format_f 3 y) <= 8 /\
    String.length (format_f 3 z) <= 8 /\ String.length (format_f 2 occ) <= 6 /\
    String.length (format_f 2 tf) <= 6 /\ String.length element <= 2)%nat).
Proof.
  intros Hc. rewrite format_pdb_line_length. unfold atom_line_length. lia.
Qed.

Lemma atom_line_is_80_wide_iff_values_fit_witness :
  (80 <= String.length three_letter_example)%nat /\
  (String.length three_letter_example = 80%nat
   <->
   (String.length (dec 1) <= 5 /\ String.length "C" <= 3 /\
    String.length "MOL" <= 3 /\ String.length (dec 1) <= 4 /\
    String.length (format_f 3 f_0) <= 8 /\ String.length (format_f 3 f_0) <= 8 /\
    String.length (format_f 3 f_0) <= 8 /\ String.length (format_f 2 float_one) <= 6 /\
    String.length (format_f 2 float_zero) <= 6 /\ String.length "ABC" <= 2)%nat).
Proof.
  apply (atom_line_is_80_wide_iff_values_fit 1 "C" "MOL" "A" 1 f_0 f_0 f_0
           float_one float_zero "ABC").
  reflexivity.
Defined.

Lemma digits_fuel_short (fuel : nat) :
  forall (n : Z) (acc : string) (k : nat),
    0 <= n < 10 ^ Z.of_nat k -> (1 <= k)%nat ->
    (String.length (digits_fuel fuel n acc) <= String.length acc + k)%nat.
Proof.
  induction fuel as [|fuel IH]; intros n acc k Hn Hk; simpl; [lia|].
  destruct (n <? 10) eqn:E.
  - simpl. lia.
  - apply Z.ltb_ge in E.
    destruct k as [|[|k]]; [lia | simpl in Hn; lia |].
    specialize (IH (n / 10) (String (ascii_of_N (Z.to_N (48 + n mod 10))) acc) (S k)).
    simpl String.length in IH.
    assert (0 <= n / 10 < 10 ^ Z.of_nat (S k)).
    { split; [apply Z.div_pos; lia|].
      apply Z.div_lt_upper_bound; [lia|].
      replace (Z.of_nat (S (S k))) with (Z.of_nat (S k) + 1) in Hn by lia.
      rewrite Z.pow_add_r in Hn by lia. lia. }
    specialize (IH H ltac:(lia)). lia.
Qed.

Lemma digits_fuel_grows (fuel : nat) :
  forall (n : Z) (acc : string),
    (String.length acc <= String.length (digits_fuel fuel n acc))%nat.
Proof.
  induction fuel as [|fuel IH]; intros n acc; simpl; [lia|].
  destruct (n <? 10); simpl; [lia|].
  specialize (IH (n / 10) (String (ascii_of_N (Z.to_N (48 + n mod 10))) acc)).
  simpl in IH. lia.
Qed.

Lemma digits_fuel_long (fuel : nat) :
  forall (n : Z) (acc : string) (k : nat),
    10 ^ Z.of_nat k <= n -> (k < fuel)%nat ->
    (String.length acc + k < String.length (digits_fuel fuel n acc))%nat.
Proof.
  induction fuel as [|fuel IH]; intros n acc k Hn Hk; [lia|].
  simpl. destruct (n <? 10) eqn:E.
  - apply Z.ltb_lt in E. destruct k as [|k]; [simpl; lia|].
    replace (Z.of_nat (S k)) with (Z.of_nat k + 1) in Hn by lia.
    rewrite Z.pow_add_r in Hn by lia.
    assert (0 < 10 ^ Z.of_nat k) by (apply Z.pow_pos_nonneg; lia). lia.
  - apply Z.ltb_ge in E. destruct k as [|k].
    + pose proof (digits_fuel_grows fuel (n / 10)
                    (String (ascii_of_N (Z.to_N (48 + n mod 10))) acc)) as H.
      simpl in H. lia.
    + specialize (IH (n / 10) (String (ascii_of_N (Z.to_N (48 + n mod 10))) acc) k).
      simpl String.length in IH.
      assert (10 ^ Z.of_nat k <= n / 10).
      { apply Z.div_le_lower_bound; [lia|].
        replace (Z.of_nat (S k)) with (Z.of_nat k + 1) in Hn by lia.
        rewrite Z.pow_add_r in Hn by lia. lia. }
      specialize (IH H ltac:(lia)). lia.
Qed.

(** The text of an integer from 0 to 99999 has at most five characters,
    the text of a larger one has more. *)
Lemma dec_five_digits (n : Z) :
  0 <= n ->
  (n <= 99999 -> (String.length (dec n) <= 5)%nat) /\
  (99999 < n -> (5 < String.length (dec n))%nat).
Proof.
  intros Hn. unfold dec. replace (n <? 0) with false by (symmetry; apply Z.ltb_ge; lia).
  unfold digits. split; intros H.
  - apply (digits_fuel_short _ n EmptyString 5); simpl; lia.
  - apply (digits_fuel_long _ n EmptyString 5); [simpl; lia|].
    assert (Z.log2 (2 ^ 16) <= Z.log2 n) by (apply Z.log2_le_mono; lia).
    rewrite Z.log2_pow2 in H0 by lia. lia.
Qed.

(** X2: the ATOM line of the converter has 80 characters with its newline as
    long as the serial number has five digits, the element token three
    characters and each coordinate eight; from the serial number 100000 on
    (the warning of line 151) it is longer. *)
Theorem converted_line_width
    (serial : Z) (element : string) (x y z : spec_float) :
  1 <= serial ->
  (String.length element <= 3)%nat ->
  (String.length (format_f 3 x) <= 8)%nat ->
  (String.length (format_f 3 y) <= 8)%nat ->
  (String.length (format_f 3 z) <= 8)%nat ->
  (serial <= 99999 ->
   String.length (render (ATOM (make_atom serial element x y z))) = 80%nat) /\
  (99999 < serial ->
   (80 < String.length (render (ATOM (make_atom serial element x y z))))%nat).
Proof.
  intros Hs He Hx Hy Hz.
  cbn [render make_atom atom_serial atom_name res_name chain_id res_seq
       coord_x coord_y coord_z occupancy temp_factor element_sym].
  rewrite format_pdb_line_length. unfold atom_line_length.
  pose proof (take_length 2 (upper element)) as Ht.
  destruct (dec_five_digits serial ltac:(lia)) as [H5 H6].
  change (String.length (dec 1)) with 1%nat.
  change (String.length (format_f 2 float_one)) with 4%nat.
  change (String.length (format_f 2 float_zero)) with 4%nat.
  change (String.length "MOL") with 3%nat.
  change (String.length "A") with 1%nat.
  split; intros H; [specialize (H5 H) | specialize (H6 H)]; lia.
Qed.

Lemma converted_line_width_witness :
  String.length (render (ATOM (make_atom 7 "Fe" f_1_5 f_0 x_1_23456))) = 80%nat.
Proof.
  refine (proj1 (converted_line_width 7 "Fe" f_1_5 f_0 x_1_23456 _ _ _ _ _) _);
    vm_compute; try lia; discriminate.
Defined.

(** ** The counters at the end of a run *)

(** X3: the MODEL records are numbered 1, 2, ... in the order they are written,
    the model count of the summary is their number, and the run ends with
    [END] when there is one and with the warning of line 180 when there is
    none. *)
Theorem models_are_numbered_and_counted (content : string) :
  exists evs st (blocks : list block),
    xyz_to_pdb content = Some (evs, st) /\
    writes evs = flat_map block_records blocks
                 ++ match blocks with [] => [] | _ => [END] end /\
    map fst blocks = count_from 1 (List.length blocks) /\
    model_count st = Z.of_nat (List.length blocks) /\
    last evs (Write END) = match blocks with [] => Warn NoValidFrames | _ => Write END end.
Proof.
  unfold xyz_to_pdb.
  destruct (frames_total (S (List.length (file_lines content))) initial (file_lines content))
    as (evs & st & E); [lia|].
  destruct (frames_blocks _ _ _ _ _ E) as (blocks & B1 & B2 & B3 & B4).
  rewrite (convert_frames _ _ _ _ _ E).
  exists (evs ++ [final_record st]), st, blocks.
  simpl model_count in B2, B4.
  assert (F : final_record st = match blocks with [] => Warn NoValidFrames | _ => Write END end).
  { unfold final_record. rewrite B4. destruct blocks as [|b blocks]; [reflexivity|].
    replace (0 <? 0 + Z.of_nat (List.length (b :: blocks))) with true
      by (symmetry; apply Z.ltb_lt; simpl List.length; lia).
    reflexivity. }
  split; [reflexivity|]. split; [|split; [|split]].
  - rewrite writes_app, B1, F. destruct blocks; reflexivity.
  - exact B2.
  - lia.
  - rewrite last_last. exact F.
Qed.

Lemma count_atoms_app (a b : list record) :
  count_atoms (a ++ b) = count_atoms a + count_atoms b.
Proof.
  induction a as [|r a IH]; [reflexivity|].
  destruct r; cbn [app count_atoms]; rewrite IH; lia.
Qed.

Lemma read_atoms_tally (todo : nat) :
  forall i k st s infile,
    let r := read_atoms todo i k st s infile in
    processed_atoms_total (counters_of r)
    = processed_atoms_total st + count_atoms (writes (events_of r)).
Proof.
  induction todo as [|todo IH]; intros i k st s infile; cbv zeta.
  - cbn -[Z.add]. lia.
  - destruct infile as [|l rest]; [cbn -[Z.add]; lia|].
    destruct (string_dec l EmptyString) as [->|Hl]; [cbn -[Z.add]; lia|].
    rewrite (read_atoms_step _ _ _ _ _ _ _ Hl).
    destruct (parse_atom_line l) as [|tok|element x y z];
      rewrite emit_events, emit_counters, writes_app, count_atoms_app, IH.
    + cbn -[Z.add]. lia.
    + cbn -[Z.add]. lia.
    + rewrite writes_app, serial_warning_writes. cbn -[Z.add]. lia.
Qed.

Lemma recover_tally (infile : stream) :
  forall st,
    processed_atoms_total (snd (fst (recover st infile))) = processed_atoms_total st.
Proof.
  induction infile as [|l rest IH]; intros st; simpl; [reflexivity|].
  destruct (is_empty l); simpl; [reflexivity|].
  destruct (parse_int (strip l)); simpl; [reflexivity|].
  now rewrite IH.
Qed.

Lemma skip_lines_tally (todo : nat) :
  forall st infile,
    processed_atoms_total (fst (skip_lines todo st infile)) = processed_atoms_total st.
Proof.
  induction todo as [|todo IH]; intros st infile; simpl; [reflexivity|].
  now rewrite IH.
Qed.

Lemma read_frame_tally (n : Z) (st : counters) (infile : stream) :
  match read_frame n st infile with
  | Break evs st' | Continue evs st' _ =>
      processed_atoms_total st' = processed_atoms_total st + count_atoms (writes evs)
  end.
Proof.
  unfold read_frame. destruct (n <=? 0).
  - pose proof (skip_lines_tally (Z.to_nat n) (next_line_num st) (snd (readline infile))) as H.
    destruct (skip_lines _ _ _) as [st1 in1]. cbn -[Z.add] in *. lia.
  - destruct (readline infile) as [c rest]. destruct (is_empty c); [cbn -[Z.add]; lia|].
    pose proof (read_atoms_tally (Z.to_nat n) 0 n (next_model (next_line_num st)) 0 rest) as H.
    cbv zeta in H.
    destruct (read_atoms _ _ _ _ _ _) as [[evs1 st1] in1].
    unfold events_of, counters_of in H. cbn -[Z.add] in H.
    cbn [writes count_atoms]. rewrite writes_app, count_atoms_app, H.
    cbn -[Z.add]. lia.
Qed.

Lemma iteration_tally (st : counters) (infile : stream) :
  match iteration st infile with
  | Break evs st' | Continue evs st' _ =>
      processed_atoms_total st' = processed_atoms_total st + count_atoms (writes evs)
  end.
Proof.
  unfold iteration. destruct (readline infile) as [h rest].
  destruct (is_empty h); [cbn -[Z.add]; lia|].
  unfold read_header. destruct (parse_int (strip h)) as [n|].
  - pose proof (read_frame_tally n (next_line_num st) rest) as H.
    destruct (read_frame _ _ _); cbn -[Z.add] in *; exact H.
  - pose proof (recover_tally rest (next_line_num st)) as R.
    destruct (recover _ _) as [[found st1] in1]. cbn -[Z.add] in R.
    destruct found as [n|]; [|simpl; lia].
    pose proof (read_frame_tally n st1 in1) as H.
    destruct (read_frame _ _ _); cbn -[Z.add] in *; lia.
Qed.

Lemma frames_tally (fuel : nat) :
  forall st infile evs st',
    frames fuel st infile = Some (evs, st') ->
    processed_atoms_total st' = processed_atoms_total st + count_atoms (writes evs).
Proof.
  induction fuel as [|fuel IH]; intros st infile evs st' E; [discriminate|].
  rewrite frames_step in E. pose proof (iteration_tally st infile) as H.
  destruct (iteration st infile) as [evs1 st1|evs1 st1 in1].
  - inversion E; subst. exact H.
  - destruct (frames fuel st1 in1) as [[evs2 st2]|] eqn:E2; [|discriminate].
    simpl in E. inversion E; subst.
    apply IH in E2. rewrite writes_app, count_atoms_app. lia.
Qed.

(** X4: the atom count of the summary is the number of ATOM records written. *)
Theorem processed_atoms_total_counts_records (content : string) :
  exists evs st,
    xyz_to_pdb content = Some (evs, st) /\
    processed_atoms_total st = count_atoms (writes evs).
Proof.
  unfold xyz_to_pdb.
  destruct (frames_total (S (List.length (file_lines content))) initial (file_lines content))
    as (evs & st & E); [lia|].
  rewrite (convert_frames _ _ _ _ _ E).
  eexists _, _. split; [reflexivity|].
  apply frames_tally in E. cbn -[Z.add] in E.
  rewrite writes_app, count_atoms_app, E.
  unfold final_record. destruct (0 <? model_count st); cbn -[Z.add]; lia.
Qed.

(** ** The search for the next atom count *)

Lemma not_a_count_nonempty_cons (l : string) (ls : list string) :
  Forall nonempty (l :: ls) -> is_empty l = false.
Proof.
  intros H. apply is_empty_false. now inversion H.
Qed.

(** The search passes over every line that is not an integer. *)
Lemma recover_scan (junk : list string) :
  forall (st : counters) (h : string) (rest : stream) (k : Z),
    Forall nonempty junk ->
    Forall not_a_count junk ->
    parse_int (strip h) = Some k ->
    recover st (junk ++ h :: rest) =
    (Some k,
     mk_counters (model_count st) (line_num st + Z.of_nat (List.length junk) + 2)
       (processed_atoms_total st),
     tl rest).
Proof.
  induction junk as [|l junk IH]; intros st h rest k Hne Hnc Hk.
  - cbn [app recover]. rewrite (is_empty_false _ (parse_int_nonempty _ _ Hk)), Hk.
    unfold next_line_num.
    cbn [model_count line_num processed_atoms_total List.length readline snd].
    f_equal; [f_equal; f_equal; lia|].
    destruct rest; reflexivity.
  - inversion Hne as [|? ? Hl Hne']; subst. inversion Hnc as [|? ? Hc Hnc']; subst.
    cbn [app recover]. rewrite (is_empty_false _ Hl). unfold not_a_count in Hc. rewrite Hc.
    rewrite (IH (next_line_num st) h rest k Hne' Hnc' Hk).
    unfold next_line_num.
    cbn [model_count line_num processed_atoms_total List.length].
    f_equal. f_equal. f_equal. lia.
Qed.

(** When no line is an integer the search reads to the end of the input. *)
Lemma recover_exhausted (ls : list string) :
  forall st : counters,
    Forall nonempty ls ->
    Forall not_a_count ls ->
    recover st ls =
    (None,
     mk_counters (model_count st) (line_num st + Z.of_nat (List.length ls) + 1)
       (processed_atoms_total st),
     []).
Proof.
  induction ls as [|l ls IH]; intros st Hne Hnc.
  - cbn [recover List.length]. unfold next_line_num.
    f_equal. f_equal. f_equal. lia.
  - inversion Hne as [|? ? Hl Hne']; subst. inversion Hnc as [|? ? Hc Hnc']; subst.
    cbn [recover]. rewrite (is_empty_false _ Hl). unfold not_a_count in Hc. rewrite Hc.
    rewrite (IH (next_line_num st) Hne' Hnc').
    unfold next_line_num.
    cbn [model_count line_num processed_atoms_total List.length].
    f_equal. f_equal. f_equal. lia.
Qed.

(** X5: after a header that is not an integer, however many lines follow that
    are not integers either, the frame is read from the first line that is
    one; the line after it is dropped (line 83) and lines 91-174 go on
    from the line after that. *)
Theorem recovery_resumes_at_next_count
    (st : counters) (bad : string) (junk : list string) (h : string)
    (rest : stream) (k : Z) :
  nonempty bad ->
  not_a_count bad ->
  Forall nonempty junk ->
  Forall not_a_count junk ->
  parse_int (strip h) = Some k ->
  iteration st (bad :: junk ++ h :: rest) =
  emit_pass [Warn (InvalidAtomCount (line_num st + 1) (strip bad))]
    (read_frame k
       (mk_counters (model_count st) (line_num st + Z.of_nat (List.length junk) + 3)
          (processed_atoms_total st))
       (tl rest)).
Proof.
  intros Hbad Hnc Hne Hjunk Hk.
  unfold iteration. simpl readline. cbv iota beta.
  rewrite (is_empty_false _ Hbad).
  unfold read_header. unfold not_a_count in Hnc. rewrite Hnc.
  rewrite (recover_scan junk (next_line_num st) h rest k Hne Hjunk Hk).
  unfold next_line_num. cbn [model_count line_num processed_atoms_total].
  replace (line_num st + 1 + Z.of_nat (List.length junk) + 2)
    with (line_num st + Z.of_nat (List.length junk) + 3) by lia.
  reflexivity.
Qed.

Lemma recovery_resumes_at_next_count_witness :
  iteration initial [line "# trajectory"; line "step 1"; line ""; line "1";
                     line "first"; line "second"; line "H 1 2 3"] =
  emit_pass [Warn (InvalidAtomCount 1 "# trajectory")]
    (read_frame 1 (mk_counters 0 5 0) [line "second"; line "H 1 2 3"]).
Proof.
  apply (recovery_resumes_at_next_count initial (line "# trajectory")
           [line "step 1"; line ""] (line "1")
           [line "first"; line "second"; line "H 1 2 3"] 1).
  - discriminate.
  - vm_compute. reflexivity.
  - repeat constructor; discriminate.
  - repeat constructor.
  - vm_compute. reflexivity.
Defined.

Lemma frames_without_a_count (st : counters) (ls : list string) :
  Forall nonempty ls ->
  Forall not_a_count ls ->
  frames 1 st ls =
  Some (match ls with
        | [] => []
        | l :: _ => [Warn (InvalidAtomCount (line_num st + 1) (strip l))]
        end,
        mk_counters (model_count st) (line_num st + Z.of_nat (List.length ls) + 1)
          (processed_atoms_total st)).
Proof.
  intros Hne Hnc. rewrite frames_step. destruct ls as [|l ls].
  - cbn [iteration readline is_empty List.length]. unfold next_line_num.
    f_equal. f_equal. f_equal. lia.
  - inversion Hne as [|? ? Hl Hne']; subst. inversion Hnc as [|? ? Hc Hnc']; subst.
    unfold iteration. simpl readline. cbv iota beta.
    rewrite (is_empty_false _ Hl).
    unfold read_header. unfold not_a_count in Hc. rewrite Hc.
    rewrite (recover_exhausted ls (next_line_num st) Hne' Hnc').
    unfold next_line_num.
    cbn [model_count line_num processed_atoms_total List.length].
    f_equal. f_equal. f_equal. lia.
Qed.

(** X6: on lines of which none is an integer nothing is written for them: the
    first one gets the warning of line 73, the search reads the others, and
    the run ends ([END] is written if a MODEL was written before). *)
Theorem lines_without_a_count_write_nothing (st : counters) (ls : list string) :
  Forall nonempty ls ->
  Forall not_a_count ls ->
  convert st ls =
  Some (match ls with
        | [] => []
        | l :: _ => [Warn (InvalidAtomCount (line_num st + 1) (strip l))]
        end ++ [final_record st],
        mk_counters (model_count st) (line_num st + Z.of_nat (List.length ls) + 1)
          (processed_atoms_total st)).
Proof.
  intros Hne Hnc.
  rewrite (convert_frames _ _ _ _ _ (frames_without_a_count st ls Hne Hnc)).
  reflexivity.
Qed.

Lemma lines_without_a_count_write_nothing_witness :
  convert initial [line "hello"; line "1.5 atoms"; line "C 0 0 0"] =
  Some ([Warn (InvalidAtomCount 1 "hello"); Warn NoValidFrames], mk_counters 0 4 0).
Proof.
  apply (lines_without_a_count_write_nothing initial
           [line "hello"; line "1.5 atoms"; line "C 0 0 0"]).
  - repeat constructor; discriminate.
  - repeat constructor.
Defined.

(** X7: a positive atom count on the last line of the input opens no
    MODEL: the run ends with the warning of line 105.  The warning names
    the line of the count when the count was read at the top of the loop
    (line 65), and the line after it when the count was found by the
    search of lines 75-86, which adds one to the line count at line 82. *)
Theorem count_on_last_line_opens_no_model (st : counters) (h : string) (k : Z) :
  parse_int (strip h) = Some k ->
  0 < k ->
  convert st [h] =
  Some ([Warn (EofAfterAtomCount (line_num st + 1)); final_record st],
        mk_counters (model_count st) (line_num st + 2) (processed_atoms_total st))
  /\
  forall (bad : string) (junk : list string),
    nonempty bad -> not_a_count bad ->
    Forall nonempty junk -> Forall not_a_count junk ->
    convert st (bad :: junk ++ [h]) =
    Some ([Warn (InvalidAtomCount (line_num st + 1) (strip bad));
           Warn (EofAfterAtomCount (line_num st + Z.of_nat (List.length junk) + 3));
           final_record st],
          mk_counters (model_count st) (line_num st + Z.of_nat (List.length junk) + 4)
            (processed_atoms_total st)).
Proof.
  intros Hk Hpos.
  assert (R : forall st0 : counters,
             read_frame k st0 [] =
             Break [Warn (EofAfterAtomCount (line_num st0 + 1 - 1))] (next_line_num st0)).
  { intros st0. unfold read_frame.
    replace (k <=? 0) with false by (symmetry; apply Z.leb_gt; lia). reflexivity. }
  split.
  - assert (E : frames 1 st [h] =
                Some ([Warn (EofAfterAtomCount (line_num st + 1))],
                      mk_counters (model_count st) (line_num st + 2)
                        (processed_atoms_total st))).
    { rewrite frames_step, (iteration_header _ _ _ _ Hk), R.
      unfold next_line_num. cbn [model_count line_num processed_atoms_total].
      f_equal. f_equal.
      - f_equal. f_equal. f_equal. lia.
      - f_equal. lia. }
    rewrite (convert_frames _ _ _ _ _ E). reflexivity.
  - intros bad junk Hbad Hnc Hne Hjunk.
    assert (E : frames 1 st (bad :: junk ++ [h]) =
                Some ([Warn (InvalidAtomCount (line_num st + 1) (strip bad));
                       Warn (EofAfterAtomCount
                               (line_num st + Z.of_nat (List.length junk) + 3))],
                      mk_counters (model_count st)
                        (line_num st + Z.of_nat (List.length junk) + 4)
                        (processed_atoms_total st))).
    { rewrite frames_step. unfold iteration. simpl readline. cbv iota beta.
      rewrite (is_empty_false _ Hbad).
      unfold read_header. unfold not_a_count in Hnc. rewrite Hnc.
      rewrite (recover_scan junk (next_line_num st) h [] k Hne Hjunk Hk).
      cbn [tl]. rewrite R. unfold next_line_num.
      cbn [emit_pass app model_count line_num processed_atoms_total].
      f_equal. f_equal.
      - f_equal. f_equal. f_equal. f_equal. lia.
      - f_equal. lia. }
    rewrite (convert_frames _ _ _ _ _ E). reflexivity.
Qed.

Lemma count_on_last_line_opens_no_model_witness :
  convert (mk_counters 1 4 2) [line "3"] =
  Some ([Warn (EofAfterAtomCount 5); Write END], mk_counters 1 6 2)
  /\
  convert initial [line "x"; line "3"] =
  Some ([Warn (InvalidAtomCount 1 "x"); Warn (EofAfterAtomCount 3); Warn NoValidFrames],
        mk_counters 0 4 0).
Proof.
  split.
  - apply (count_on_last_line_opens_no_model (mk_counters 1 4 2) (line "3") 3).
    + vm_compute. reflexivity.
    + lia.
  - refine (proj2 (count_on_last_line_opens_no_model initial (line "3") 3 _ _)
              (line "x") [] _ _ _ _).
    + vm_compute. reflexivity.
    + lia.
    + discriminate.
    + vm_compute. reflexivity.
    + constructor.
    + constructor.
Defined.

(** ** Blank lines *)

Lemma blank_split (l : string) : blank l = true -> split l = [].
Proof.
  unfold split. induction l as [|c l IH]; intros H; simpl in *; [reflexivity|].
  apply andb_prop in H. destruct H as [Hc Hl]. rewrite Hc. auto.
Qed.

Lemma blank_strip (l : string) : blank l = true -> strip l = EmptyString.
Proof.
  unfold strip. induction l as [|c l IH]; intros H; simpl in *; [reflexivity|].
  apply andb_prop in H. destruct H as [Hc Hl]. rewrite Hc. auto.
Qed.

(** X8: a line of blanks only is neither an atom nor an atom count: among the
    atom lines of a frame it gets the warning of line 124 and uses up one
    of the declared lines; where a header is expected it starts the search
    of lines 75-86. *)
Theorem blank_line_is_not_passed_over (l : string) :
  blank l = true ->
  nonempty l ->
  (forall todo i k st s rest,
      read_atoms (S todo) i k st s (l :: rest) =
      emit [Warn (ShortAtomLine (line_num st + 1) (model_count st) EmptyString)]
        (read_atoms todo (i + 1) k (next_line_num st) s rest)) /\
  (forall st rest,
      iteration st (l :: rest) =
      let '(found, st', infile') := recover (next_line_num st) rest in
      match found with
      | None => Break [Warn (InvalidAtomCount (line_num st + 1) EmptyString)] st'
      | Some n =>
          emit_pass [Warn (InvalidAtomCount (line_num st + 1) EmptyString)]
            (read_frame n st' infile')
      end).
Proof.
  intros Hb Hl. split.
  - intros. rewrite (read_atoms_step _ _ _ _ _ _ _ Hl).
    unfold parse_atom_line. rewrite (blank_split _ Hb), (blank_strip _ Hb). reflexivity.
  - intros. unfold iteration. simpl readline. cbv iota beta.
    rewrite (is_empty_false _ Hl). unfold read_header.
    rewrite (blank_strip _ Hb). cbn [parse_int strip lstrip rstrip split_sign digitpart].
    destruct (recover (next_line_num st) rest) as [[found st'] infile'].
    destruct found; reflexivity.
Qed.

Lemma blank_line_is_not_passed_over_witness :
  read_atoms 2 0 2 initial 0 [line "  "; line "H 1 2 3"] =
  emit [Warn (ShortAtomLine 1 0 EmptyString)]
    (read_atoms 1 1 2 (next_line_num initial) 0 [line "H 1 2 3"]).
Proof.
  refine (proj1 (blank_line_is_not_passed_over (line "  ") _ _) 1%nat 0 2 initial 0
            [line "H 1 2 3"]).
  - reflexivity.
  - discriminate.
Defined.

(** ** Whole frames, then the rest of the input *)

Lemma read_atoms_exact_line_num (ls : list string) :
  forall i k st s rest,
    Forall nonempty ls ->
    line_num (counters_of (read_atoms (List.length ls) i k st s (ls ++ rest)))
    = line_num st + Z.of_nat (List.length ls).
Proof.
  induction ls as [|l ls IH]; intros i k st s rest H.
  - cbn [List.length app read_atoms counters_of fst snd]. lia.
  - inversion H as [|? ? Hl Hls]; subst.
    cbn [List.length app]. rewrite (read_atoms_step _ _ _ _ _ _ _ Hl).
    destruct (parse_atom_line l) as [|tok|element x y z];
      rewrite emit_counters, IH by exact Hls;
      unfold next_atom, next_line_num; cbn [line_num]; lia.
Qed.

Lemma iteration_framed_line_num (f : frame) (st : counters) (rest : stream) :
  framed f ->
  exists evs st',
    iteration st (frame_lines f ++ rest) = Continue evs st' rest /\
    writes evs = block_records (model_count st + 1, frame_atoms f) /\
    model_count st' = model_count st + 1 /\
    line_num st' = line_num st + Z.of_nat (List.length (frame_lines f)).
Proof.
  intros Hf.
  destruct (iteration_framed f st rest Hf) as (evs & st' & E & W & M).
  exists evs, st'. repeat split; auto.
  destruct Hf as (k & Hk & Hpos & Hlen & Hc & Hls).
  unfold frame_lines in *. cbn [app] in E.
  rewrite (iteration_header _ _ _ _ Hk) in E.
  unfold read_frame in E.
  replace (k <=? 0) with false in E by (symmetry; apply Z.leb_gt; lia).
  cbn [readline] in E. rewrite (is_empty_false _ Hc) in E.
  replace (Z.to_nat k) with (List.length (atom_lines f)) in E by lia.
  pose proof (read_atoms_exact_line_num (atom_lines f) 0 k
                (next_model (next_line_num (next_line_num st))) 0 rest Hls) as L.
  destruct (read_atoms _ _ _ _ _ _) as [[evs1 st1] in1].
  unfold counters_of in L. cbn [fst snd] in L.
  inversion E; subst.
  rewrite L. unfold next_model, next_line_num. cbn [line_num List.length]. lia.
Qed.

Lemma frames_framed_then (fs : list frame) :
  forall (st : counters) (rest : stream),
    Forall framed fs ->
    exists evs1 st1,
      writes evs1 = model_blocks (model_count st + 1) fs /\
      model_count st1 = model_count st + Z.of_nat (List.length fs) /\
      line_num st1 = line_num st + Z.of_nat (List.length (flat_map frame_lines fs)) /\
      processed_atoms_total st1
      = processed_atoms_total st + count_atoms (writes evs1) /\
      forall fuel,
        frames (List.length fs + fuel) st (flat_map frame_lines fs ++ rest)
        = emit_opt evs1 (frames fuel st1 rest).
Proof.
  induction fs as [|f fs IH]; intros st rest H.
  - exists [], st. cbn [flat_map List.length app model_blocks writes count_atoms].
    repeat split; try lia.
    intros fuel. cbn [Nat.add]. destruct (frames fuel st rest) as [[evs st']|]; reflexivity.
  - inversion H as [|? ? Hf Hfs]; subst.
    destruct (iteration_framed_line_num f st (flat_map frame_lines fs ++ rest) Hf)
      as (evs0 & st0 & E0 & W0 & M0 & L0).
    pose proof (iteration_tally st (frame_lines f ++ flat_map frame_lines fs ++ rest)) as P0.
    rewrite E0 in P0.
    destruct (IH st0 rest Hfs) as (evs1 & st1 & W1 & M1 & L1 & P1 & F1).
    exists (evs0 ++ evs1), st1.
    cbn [flat_map model_blocks].
    rewrite writes_app, count_atoms_app, P1, P0, W0, W1, M0, M1, L1, L0.
    rewrite length_app. split; [reflexivity|]. split; [cbn [List.length]; lia|].
    split; [lia|]. split; [lia|].
    intros fuel. cbn [List.length Nat.add]. rewrite frames_step.
    rewrite <- app_assoc, E0, F1.
    destruct (frames fuel st1 rest) as [[evs2 st2]|]; cbn [emit_opt]; [|reflexivity].
    rewrite app_assoc. reflexivity.
Qed.

(** X9: frames that are all there are converted one by one, each into its
    MODEL block, and what follows them is converted as if it stood at the
    head of the input, with the counters they leave: the output is the
    blocks of the frames, then the output for the rest. *)
Theorem whole_frames_then_rest (fs : list frame) (st : counters) (rest : stream) :
  Forall framed fs ->
  exists evs1 st1 evs2 st2,
    writes evs1 = model_blocks (model_count st + 1) fs /\
    model_count st1 = model_count st + Z.of_nat (List.length fs) /\
    line_num st1 = line_num st + Z.of_nat (List.length (flat_map frame_lines fs)) /\
    processed_atoms_total st1
    = processed_atoms_total st + count_atoms (model_blocks (model_count st + 1) fs) /\
    convert st1 rest = Some (evs2, st2) /\
    convert st (flat_map frame_lines fs ++ rest) = Some (evs1 ++ evs2, st2).
Proof.
  intros H.
  destruct (frames_framed_then fs st rest H) as (evs1 & st1 & W1 & M1 & L1 & P1 & F1).
  destruct (frames_total (S (List.length rest)) st1 rest) as (evs2 & st2 & E2); [lia|].
  exists evs1, st1, (evs2 ++ [final_record st2]), st2.
  rewrite <- W1.
  repeat split; auto.
  - exact (convert_frames _ _ _ _ _ E2).
  - pose proof (F1 (S (List.length rest))) as F. rewrite E2 in F. cbn [emit_opt] in F.
    rewrite (convert_frames _ _ _ _ _ F), app_assoc. reflexivity.
Qed.

Lemma whole_frames_then_rest_witness :
  exists evs1 st1 evs2 st2,
    writes evs1 = model_blocks 1 [two_atom_frame] /\
    model_count st1 = 1 /\
    line_num st1 = 4 /\
    processed_atoms_total st1 = 2 /\
    convert st1 [line "trailing text"] = Some (evs2, st2) /\
    convert initial (frame_lines two_atom_frame ++ [line "trailing text"])
    = Some (evs1 ++ evs2, st2).
Proof.
  apply (whole_frames_then_rest [two_atom_frame] initial [line "trailing text"]).
  repeat constructor.
  exists 2. repeat split; try (vm_compute; reflexivity); try discriminate.
  repeat constructor; discriminate.
Defined.

(** ** The line numbers of the warnings *)

Lemma skipn_cons_nth {A : Type} (n : nat) :
  forall (L : list A) (l : A) (r : list A),
    skipn n L = l :: r -> nth_error L n = Some l /\ skipn (S n) L = r.
Proof.
  induction n as [|n IH]; intros L l r H.
  - destruct L; simpl in H; [discriminate|]. inversion H; subst. auto.
  - destruct L as [|a L]; simpl in H; [discriminate|].
    apply IH in H. exact H.
Qed.

Lemma skipn_nil_succ {A : Type} (n : nat) :
  forall L : list A, skipn n L = [] -> skipn (S n) L = [].
Proof.
  induction n as [|n IH]; intros L H.
  - destruct L; [reflexivity | discriminate].
  - destruct L as [|a L]; [reflexivity|]. simpl in H. apply IH in H. exact H.
Qed.

(** Reading a line keeps the line count in step with the input, and a line
    that is read is the line of the new count. *)
Lemma in_step_readline (L : list string) (n : Z) (infile : stream) :
  in_step L n infile ->
  in_step L (n + 1) (snd (readline infile)) /\
  (nonempty (fst (readline infile)) -> line_at L (n + 1) = Some (fst (readline infile))).
Proof.
  intros [Hn H]. unfold in_step, line_at.
  replace (Z.to_nat (n + 1)) with (S (Z.to_nat n)) by lia.
  replace (n + 1 <? 1) with false by (symmetry; apply Z.ltb_ge; lia).
  replace (Z.to_nat (n + 1 - 1)) with (Z.to_nat n) by lia.
  destruct infile as [|l r]; cbn [readline fst snd].
  - split; [split; [lia|]|].
    + symmetry. apply skipn_nil_succ. auto.
    + intros E. exfalso. apply E. reflexivity.
  - symmetry in H. apply skipn_cons_nth in H. destruct H as [H1 H2].
    split; [split; [lia | auto]|]. intros _. exact H1.
Qed.

Lemma in_step_cons (L : list string) (n : Z) (l : string) (rest : stream) :
  in_step L n (l :: rest) ->
  in_step L (n + 1) rest /\ line_at L (n + 1) = Some l.
Proof.
  intros H. destruct (in_step_readline L n (l :: rest) H) as [H1 H2].
  cbn [readline fst snd] in *. split; [exact H1|].
  destruct (string_dec l EmptyString) as [->|Hl]; [|auto].
  clear H2 H1. destruct H as [Hn H]. unfold line_at.
  replace (n + 1 <? 1) with false by (symmetry; apply Z.ltb_ge; lia).
  replace (Z.to_nat (n + 1 - 1)) with (Z.to_nat n) by lia.
  symmetry in H. apply skipn_cons_nth in H. tauto.
Qed.

Lemma parse_atom_line_short (l : string) :
  parse_atom_line l = TooFewTokens -> (List.length (split l) < 4)%nat.
Proof.
  unfold parse_atom_line.
  destruct (split l) as [|e [|p1 [|p2 [|p3 more]]]]; simpl; try lia.
  destruct (parse_float p1); [|discriminate].
  destruct (parse_float p2); [|discriminate].
  destruct (parse_float p3); discriminate.
Qed.

Lemma parse_atom_line_bad (l tok : string) :
  parse_atom_line l = NotAFloat tok -> In tok (split l) /\ parse_float tok = None.
Proof.
  unfold parse_atom_line.
  destruct (split l) as [|e [|p1 [|p2 [|p3 more]]]]; try discriminate.
  destruct (parse_float p1) eqn:E1.
  - destruct (parse_float p2) eqn:E2.
    + destruct (parse_float p3) eqn:E3; [discriminate|].
      intros H. inversion H; subst. simpl. tauto.
    + intros H. inversion H; subst. simpl. tauto.
  - intros H. inversion H; subst. simpl. tauto.
Qed.

Lemma Forall_located_serial_warning (L : list string) (s m : Z) :
  Forall (located L) (warnings (serial_warning s m)).
Proof.
  unfold serial_warning. destruct (99999 <? s); repeat constructor.
Qed.

Lemma read_atoms_located (L : list string) (todo : nat) :
  forall i k st s infile,
    in_step L (line_num st) infile ->
    let r := read_atoms todo i k st s infile in
    Forall (located L) (warnings (events_of r)) /\
    in_step L (line_num (counters_of r)) (rest_of r).
Proof.
  induction todo as [|todo IH]; intros i k st s infile H; cbv zeta.
  - cbn [read_atoms events_of counters_of rest_of fst snd warnings]. auto.
  - destruct infile as [|l rest].
    + destruct (in_step_readline L _ _ H) as [H1 _].
      cbn [read_atoms readline is_empty events_of counters_of rest_of fst snd warnings] in *.
      split; [repeat constructor | exact H1].
    + destruct (in_step_cons L _ _ _ H) as [H1 H2].
      destruct (string_dec l EmptyString) as [->|Hl].
      * cbn [read_atoms readline is_empty events_of counters_of rest_of fst snd warnings].
        split; [repeat constructor | exact H1].
      * rewrite (read_atoms_step _ _ _ _ _ _ _ Hl).
        destruct (parse_atom_line l) as [|tok|element x y z] eqn:E;
          rewrite emit_events, emit_counters, emit_rest, warnings_app.
        -- destruct (IH (i + 1) k (next_line_num st) s rest H1) as [W S].
           split; [|exact S]. apply Forall_app. split; [|exact W].
           repeat constructor. exists l. repeat split; auto.
           apply parse_atom_line_short. exact E.
        -- destruct (IH (i + 1) k (next_line_num st) s rest H1) as [W S].
           split; [|exact S]. apply Forall_app. split; [|exact W].
           repeat constructor. exists l.
           destruct (parse_atom_line_bad _ _ E). repeat split; auto.
        -- destruct (IH (i + 1) k (next_atom (next_line_num st)) (s + 1) rest H1) as [W S].
           split; [|exact S]. apply Forall_app. split; [|exact W].
           rewrite warnings_app. apply Forall_app. split.
           ++ apply Forall_located_serial_warning.
           ++ constructor.
Qed.

Lemma recover_in_step (L : list string) (infile : stream) :
  forall st,
    in_step L (line_num st) infile ->
    in_step L (line_num (snd (fst (recover st infile)))) (snd (recover st infile)).
Proof.
  induction infile as [|l rest IH]; intros st H.
  - destruct (in_step_readline L _ _ H) as [H1 _]. exact H1.
  - destruct (in_step_cons L _ _ _ H) as [H1 H2].
    cbn [recover]. destruct (is_empty l); [exact H1|].
    destruct (parse_int (strip l)).
    + destruct (in_step_readline L _ _ H1) as [H3 _]. exact H3.
    + apply IH. exact H1.
Qed.

Lemma skip_lines_in_step (L : list string) (todo : nat) :
  forall st infile,
    in_step L (line_num st) infile ->
    in_step L (line_num (fst (skip_lines todo st infile))) (snd (skip_lines todo st infile)).
Proof.
  induction todo as [|todo IH]; intros st infile H; [exact H|].
  cbn [skip_lines]. apply IH.
  destruct (in_step_readline L _ _ H) as [H1 _]. exact H1.
Qed.

Lemma read_frame_located (L : list string) (n : Z) (st : counters) (infile : stream) :
  in_step L (line_num st) infile ->
  match read_frame n st infile with
  | Break evs _ => Forall (located L) (warnings evs)
  | Continue evs st' infile' =>
      Forall (located L) (warnings evs) /\ in_step L (line_num st') infile'
  end.
Proof.
  intros H. unfold read_frame. destruct (n <=? 0).
  - destruct (in_step_readline L _ _ H) as [H1 _].
    pose proof (skip_lines_in_step L (Z.to_nat n) (next_line_num st) _ H1) as H2.
    destruct (skip_lines _ _ _) as [st1 in1]. cbn [fst snd] in H2.
    split; [repeat constructor | exact H2].
  - destruct (in_step_readline L _ _ H) as [H1 _].
    destruct (readline infile) as [c rest]. cbn [snd] in H1.
    destruct (is_empty c); [repeat constructor|].
    pose proof (read_atoms_located L (Z.to_nat n) 0 n (next_model (next_line_num st)) 0
                  rest H1) as R.
    cbv zeta in R. destruct R as [W S].
    destruct (read_atoms _ _ _ _ _ _) as [[evs1 st1] in1].
    unfold events_of, counters_of, rest_of in *. cbn [fst snd] in W, S.
    split; [|exact S]. cbn [warnings]. rewrite warnings_app.
    apply Forall_app. split; [exact W | repeat constructor].
Qed.

Lemma iteration_located (L : list string) (st : counters) (infile : stream) :
  in_step L (line_num st) infile ->
  match iteration st infile with
  | Break evs _ => Forall (located L) (warnings evs)
  | Continue evs st' infile' =>
      Forall (located L) (warnings evs) /\ in_step L (line_num st') infile'
  end.
Proof.
  intros H. unfold iteration.
  destruct infile as [|h rest]; [repeat constructor|].
  destruct (in_step_cons L _ _ _ H) as [H1 H2].
  cbn [readline]. destruct (is_empty h); [repeat constructor|].
  unfold read_header. destruct (parse_int (strip h)) as [n|] eqn:E.
  - pose proof (read_frame_located L n (next_line_num st) rest H1) as R.
    destruct (read_frame _ _ _); exact R.
  - pose proof (recover_in_step L rest (next_line_num st) H1) as R.
    destruct (recover _ _) as [[found st1] in1]. cbn [fst snd] in R.
    assert (W : Forall (located L)
                  (warnings [Warn (InvalidAtomCount (line_num (next_line_num st)) (strip h))])).
    { repeat constructor. exists h. repeat split; auto. }
    destruct found as [n|]; [|exact W].
    pose proof (read_frame_located L n st1 in1 R) as F.
    destruct (read_frame _ _ _); cbn [emit_pass]; rewrite warnings_app.
    + apply Forall_app. split; [exact W | exact F].
    + destruct F as [F1 F2]. split; [|exact F2].
      apply Forall_app. split; [exact W | exact F1].
Qed.

Lemma frames_located (L : list string) (fuel : nat) :
  forall st infile evs st',
    in_step L (line_num st) infile ->
    frames fuel st infile = Some (evs, st') ->
    Forall (located L) (warnings evs).
Proof.
  induction fuel as [|fuel IH]; intros st infile evs st' H E; [discriminate|].
  rewrite frames_step in E. pose proof (iteration_located L st infile H) as I.
  destruct (iteration st infile) as [evs1 st1|evs1 st1 in1].
  - inversion E; subst. exact I.
  - destruct I as [I1 I2].
    destruct (frames fuel st1 in1) as [[evs2 st2]|] eqn:E2; [|discriminate].
    cbn [emit_opt] in E. inversion E; subst.
    rewrite warnings_app. apply Forall_app. split; [exact I1|].
    exact (IH _ _ _ _ I2 E2).
Qed.

(** X10: every warning about a line of the input gives the number that the line
    has in the file, counting from 1, and quotes that line. *)
Theorem warnings_name_their_lines (content : string) :
  exists evs st,
    xyz_to_pdb content = Some (evs, st) /\
    Forall (located (file_lines content)) (warnings evs).
Proof.
  unfold xyz_to_pdb.
  destruct (frames_total (S (List.length (file_lines content))) initial (file_lines content))
    as (evs & st & E); [lia|].
  rewrite (convert_frames _ _ _ _ _ E).
  eexists _, _. split; [reflexivity|].
  rewrite warnings_app. apply Forall_app. split.
  - refine (frames_located _ _ _ _ _ _ _ E).
    split; [cbn; lia | reflexivity].
  - unfold final_record. destruct (0 <? model_count st); repeat constructor.
Qed.

(** ** Coordinates with three decimals *)

Lemma div_rne_error (a d : Z) :
  0 < d -> - d <= 2 * (a - div_rne a d * d) <= d.
Proof.
  intros Hd. unfold div_rne. cbv zeta.
  pose proof (Z.div_mod a d ltac:(lia)) as E.
  pose proof (Z.mod_pos_bound a d Hd) as B.
  set (x := a / d) in *. set (r := a mod d) in *. clearbody x r.
  destruct (2 * r ?= d) eqn:C.
  - apply Z.compare_eq in C. destruct (Z.even x); lia.
  - change (2 * r < d) in C. lia.
  - change (2 * r > d) in C. lia.
Qed.

Lemma div_rne_exact (a d n : Z) :
  0 < d -> - d < 2 * (a - n * d) < d -> div_rne a d = n.
Proof.
  intros Hd H. pose proof (div_rne_error a d Hd) as E.
  set (m := div_rne a d) in *.
  assert (- 1 < m - n < 1) by nia. lia.
Qed.

(** The float nearest to a number of thousandths is formatted back to that
    number. *)
Lemma round_double_thousandths (neg : bool) (p q n : Z) :
  0 < p -> 0 < q -> 1000 * p = n * q -> n < 2 ^ 50 ->
  format_f 3 (round_double neg p q) = (sign_text neg ++ fixed_digits 3 n)%string.
Proof.
  intros Hp Hq Hn Hlt.
  assert (Hn0 : 0 < n) by nia.
  unfold round_double. cbv zeta.
  replace (p =? 0) with false by (symmetry; apply Z.eqb_neq; lia).
  set (b := Z.log2 q).
  assert (Hb : 0 <= b) by apply Z.log2_nonneg.
  assert (Hlog : Z.log2 p < b + 42).
  { apply Z.log2_lt_pow2; [lia|].
    destruct (Z.log2_spec q Hq) as [_ Hq2]. fold b in Hq2.
    rewrite Z.pow_add_r by lia. rewrite Z.pow_succ_r in Hq2 by lia.
    assert (0 < 2 ^ b) by (apply Z.pow_pos_nonneg; lia).
    change (2 ^ 42) with 4398046511104. change (2 ^ 50) with 1125899906842624 in Hlt.
    nia. }
  set (e0 := Z.max (Z.log2 p - b - prec) emin).
  assert (He0 : -1074 <= e0 <= -12) by (unfold e0, prec, emin; lia).
  set (e1 := if 2 ^ prec <=? scaled_floor p q e0 then e0 + 1 else e0).
  assert (He1 : -1074 <= e1 <= -11)
    by (unfold e1; destruct (2 ^ prec <=? scaled_floor p q e0); lia).
  clearbody e1. clear e0 He0.
  unfold scaled_rne. replace (e1 <? 0) with true by (symmetry; apply Z.ltb_lt; lia).
  set (D := 2 ^ (- e1)).
  assert (HD : 2048 <= D).
  { change 2048 with (2 ^ 11). apply Z.pow_le_mono_r; lia. }
  pose proof (div_rne_error (p * D) q Hq) as Err.
  set (m1 := div_rne (p * D) q) in *.
  assert (Hm1 : 0 < m1) by nia.
  assert (Hclose : - 1000 <= 2 * (n * D - 1000 * m1) <= 1000) by nia.
  destruct (m1 =? 2 ^ prec) eqn:Em.
  - apply Z.eqb_eq in Em.
    replace (emax_exp <? e1 + 1) with false
      by (symmetry; apply Z.ltb_ge; unfold emax_exp; lia).
    change (2 ^ (prec - 1)) with (Zpos 4503599627370496).
    cbn [format_f]. fold (sign_text neg). f_equal. f_equal.
    unfold scaled_rne. replace (- (e1 + 1) <? 0) with false
      by (symmetry; apply Z.ltb_ge; lia).
    rewrite Z.mul_1_l.
    assert (HD' : D = 2 * 2 ^ (- (e1 + 1))).
    { unfold D. replace (- e1) with (Z.succ (- (e1 + 1))) by lia.
      apply Z.pow_succ_r. lia. }
    set (D' := 2 ^ (- (e1 + 1))) in *.
    apply div_rne_exact; [lia|].
    change (2 ^ prec) with 9007199254740992 in Em.
    change (10 ^ Z.of_nat 3) with 1000. lia.
  - apply Z.eqb_neq in Em.
    replace (emax_exp <? e1) with false
      by (symmetry; apply Z.ltb_ge; unfold emax_exp; lia).
    destruct m1 as [|mp|mp]; try lia.
    cbn [format_f]. fold (sign_text neg). f_equal. f_equal.
    unfold scaled_rne. replace (- e1 <? 0) with false
      by (symmetry; apply Z.ltb_ge; lia).
    rewrite Z.mul_1_l. fold D.
    apply div_rne_exact; [lia|].
    change (10 ^ Z.of_nat 3) with 1000. lia.
Qed.

Lemma decimal_to_double_thousandths (neg : bool) (m e : Z) :
  0 <= m -> -3 <= e -> m * 10 ^ (e + 3) < 2 ^ 50 ->
  format_f 3 (decimal_to_double neg m e)
  = (sign_text neg ++ fixed_digits 3 (m * 10 ^ (e + 3)))%string.
Proof.
  intros Hm He Hlt. unfold decimal_to_double.
  destruct (Z.eq_dec m 0) as [->|Hm0].
  - rewrite Z.mul_0_l. destruct (0 <=? e); reflexivity.
  - destruct (0 <=? e) eqn:E.
    + apply Z.leb_le in E.
      assert (0 < 10 ^ e) by (apply Z.pow_pos_nonneg; lia).
      apply round_double_thousandths; try nia.
      rewrite Z.pow_add_r by lia. change (10 ^ 3) with 1000. lia.
    + apply Z.leb_gt in E.
      assert (0 < 10 ^ (- e)) by (apply Z.pow_pos_nonneg; lia).
      apply round_double_thousandths; try lia.
      rewrite <- Z.mul_assoc, <- Z.pow_add_r by lia.
      replace (e + 3 + - e) with 3 by lia. change (10 ^ 3) with 1000. lia.
Qed.

Lemma span_digits_nonneg (s : string) :
  forall acc n, 0 <= acc -> 0 <= fst (fst (span_digits acc n s)).
Proof.
  induction s as [|c s IH]; intros acc n H; cbn [span_digits fst]; [exact H|].
  destruct (is_digit c) eqn:E; [|exact H].
  apply IH. unfold is_digit in E. unfold digit_val.
  apply andb_prop in E. destruct E as [E _]. apply Z.leb_le in E. lia.
Qed.

Lemma parse_decimal_nonneg (s : string) (m e : Z) :
  parse_decimal s = Some (m, e) -> 0 <= m.
Proof.
  unfold parse_decimal.
  pose proof (span_digits_nonneg s 0 0 ltac:(lia)) as H1.
  destruct (span_digits 0 0 s) as [[ip ni] r1]. cbn [fst] in H1.
  assert (H2 : forall r, 0 <= fst (fst (span_digits ip 0 r)))
    by (intros r; apply span_digits_nonneg; exact H1).
  destruct r1 as [|c r].
  - destruct (0 <? ni + 0); [|discriminate].
    destruct (parse_exponent EmptyString); [|discriminate].
    intros E. inversion E; subst. exact H1.
  - destruct (Ascii.eqb c ".") eqn:Ec.
    + apply Ascii.eqb_eq in Ec. subst c.
      specialize (H2 r). destruct (span_digits ip 0 r) as [[v nf] r']. cbn [fst] in H2.
      destruct (0 <? ni + nf); [|discriminate].
      destruct (parse_exponent r'); [|discriminate].
      intros E. inversion E; subst. exact H2.
    + assert (Hc : (let '(m0, nf, r2) :=
                      match String c r with
                      | String "."%char r0 =>
                          let '(v, n, r') := span_digits ip 0 r0 in (v, n, r')
                      | _ => (ip, 0, String c r)
                      end in
                    if 0 <? ni + nf
                    then match parse_exponent r2 with
                         | Some e0 => Some (m0, e0 - nf)
                         | None => None
                         end
                    else None)
                   = (if 0 <? ni + 0
                      then match parse_exponent (String c r) with
                           | Some e0 => Some (ip, e0 - 0)
                           | None => None
                           end
                      else None)).
      { destruct c as [[] [] [] [] [] [] [] []]; try reflexivity; discriminate. }
      rewrite Hc. destruct (0 <? ni + 0); [|discriminate].
      destruct (parse_exponent (String c r)); [|discriminate].
      intros E. inversion E; subst. exact H1.
Qed.

Lemma decimal_literal_parse (s : string) (neg : bool) (m e : Z) :
  decimal_literal s = Some (neg, m, e) ->
  parse_float s = Some (decimal_to_double neg m e) /\ 0 <= m.
Proof.
  unfold decimal_literal, parse_float.
  destruct (drop_underscores None (strip s)) as [t|]; [|discriminate].
  destruct (split_sign t) as [sg r].
  destruct (String.eqb (lower r) "inf" || String.eqb (lower r) "infinity"); [discriminate|].
  destruct (String.eqb (lower r) "nan"); [discriminate|].
  destruct (parse_decimal r) as [[m' e']|] eqn:E; [|discriminate].
  intros H. inversion H; subst. split; [reflexivity|].
  exact (parse_decimal_nonneg _ _ _ E).
Qed.

(** X11: a coordinate that the input gives as a decimal number with at most
    three decimals, below 2^50 thousandths, is written with exactly its
    value: the text is the number of thousandths, with the point before the
    last three digits, whatever the binary float in between. *)
Theorem three_decimals_are_kept (s : string) (neg : bool) (m e : Z) :
  decimal_literal s = Some (neg, m, e) ->
  -3 <= e ->
  m * 10 ^ (e + 3) < 2 ^ 50 ->
  option_map (format_f 3) (parse_float s)
  = Some (sign_text neg ++ fixed_digits 3 (m * 10 ^ (e + 3)))%string.
Proof.
  intros H He Hlt. apply decimal_literal_parse in H. destruct H as [-> Hm].
  cbn [option_map]. f_equal. apply decimal_to_double_thousandths; assumption.
Qed.

Lemma three_decimals_are_kept_witness :
  option_map (format_f 3) (parse_float "-1234.56") = Some "-1234.560"%string.
Proof.
  refine (three_decimals_are_kept "-1234.56" true 123456 (-2) _ _ _).
  - vm_compute. reflexivity.
  - lia.
  - vm_compute. reflexivity.
Defined.

(** ** Blanks around a line *)

Lemma split_aux_lstrip (s : string) : split_aux None (lstrip s) = split_aux None s.
Proof.
  induction s as [|c s IH]; [reflexivity|].
  cbn [lstrip]. destruct (is_space c) eqn:E; [|reflexivity].
  cbn [split_aux]. rewrite E. exact IH.
Qed.

Lemma split_aux_rstrip (s : string) :
  forall cur, split_aux cur (rstrip s) = split_aux cur s.
Proof.
  induction s as [|c s IH]; intros cur; [reflexivity|].
  cbn [rstrip]. destruct (rstrip s) as [|c' r'] eqn:R.
  - destruct (is_space c) eqn:E.
    + cbn [split_aux]. rewrite E. destruct cur as [t|]; rewrite <- IH; reflexivity.
    + cbn [split_aux]. rewrite E. destruct cur as [t|]; rewrite <- IH; reflexivity.
  - set (u := String c' r') in *. clearbody u.
    cbn [split_aux]. destruct (is_space c); destruct cur as [t|]; rewrite IH; reflexivity.
Qed.

(** The tokens of a line are the tokens of its text without the blanks
    around it. *)
Lemma split_strip (l : string) : split (strip l) = split l.
Proof.
  unfold split, strip. rewrite split_aux_rstrip. apply split_aux_lstrip.
Qed.

Lemma same_text_parse_atom_line (l l' : string) :
  same_text l l' -> parse_atom_line l = parse_atom_line l'.
Proof.
  intros [H _]. unfold parse_atom_line.
  rewrite <- (split_strip l), <- (split_strip l'), H. reflexivity.
Qed.

Lemma read_atoms_same_text (todo : nat) :
  forall i k st s infile infile',
    Forall2 same_text infile infile' ->
    let r := read_atoms todo i k st s infile in
    let r' := read_atoms todo i k st s infile' in
    events_of r = events_of r' /\ counters_of r = counters_of r' /\
    Forall2 same_text (rest_of r) (rest_of r').
Proof.
  induction todo as [|todo IH]; intros i k st s infile infile' H; cbv zeta.
  - cbn [read_atoms events_of counters_of rest_of fst snd]. auto.
  - destruct H as [|l l' rest rest' Hl Hrest].
    + cbn [read_atoms readline is_empty events_of counters_of rest_of fst snd]. auto.
    + cbn [read_atoms readline].
      pose proof (same_text_parse_atom_line _ _ Hl) as P.
      destruct Hl as [Hs He]. rewrite <- He, <- Hs, <- P.
      destruct (is_empty l).
      * cbn [events_of counters_of rest_of fst snd]. auto.
      * destruct (parse_atom_line l) as [|tok|element x y z];
          rewrite !emit_events, !emit_counters, !emit_rest;
          match goal with
          | |- context [read_atoms todo ?a ?b ?c ?d rest] =>
              destruct (IH a b c d rest rest' Hrest) as (E1 & E2 & E3)
          end;
          rewrite E1, E2; auto.
Qed.

Lemma recover_same_text (infile : stream) :
  forall st infile',
    Forall2 same_text infile infile' ->
    fst (recover st infile) = fst (recover st infile') /\
    Forall2 same_text (snd (recover st infile)) (snd (recover st infile')).
Proof.
  induction infile as [|l rest IH]; intros st infile' H.
  - inversion H; subst. cbn [recover fst snd]. auto.
  - inversion H as [|? l' ? rest' [Hs He] Hrest]; subst.
    cbn [recover]. rewrite <- He, <- Hs.
    destruct (is_empty l); [cbn [fst snd]; auto|].
    destruct (parse_int (strip l)); [|apply IH; exact Hrest].
    cbn [fst snd]. split; [reflexivity|].
    destruct Hrest; cbn [readline snd]; auto.
Qed.

Lemma skip_lines_same_text (todo : nat) :
  forall st infile infile',
    Forall2 same_text infile infile' ->
    fst (skip_lines todo st infile) = fst (skip_lines todo st infile') /\
    Forall2 same_text (snd (skip_lines todo st infile)) (snd (skip_lines todo st infile')).
Proof.
  induction todo as [|todo IH]; intros st infile infile' H; [cbn [skip_lines fst snd]; auto|].
  cbn [skip_lines]. apply IH. destruct H; cbn [readline snd]; auto.
Qed.

Lemma read_frame_same_text (n : Z) (st : counters) (infile infile' : stream) :
  Forall2 same_text infile infile' ->
  same_pass (read_frame n st infile) (read_frame n st infile').
Proof.
  intros H. unfold read_frame. destruct (n <=? 0).
  - assert (H1 : Forall2 same_text (snd (readline infile)) (snd (readline infile')))
      by (destruct H; cbn [readline snd]; auto).
    destruct (skip_lines_same_text (Z.to_nat n) (next_line_num st) _ _ H1) as [E1 E2].
    destruct (skip_lines _ _ (snd (readline infile))) as [st1 in1].
    destruct (skip_lines _ _ (snd (readline infile'))) as [st1' in1'].
    cbn [fst snd] in E1, E2. subst st1'. cbn [same_pass]. auto.
  - destruct H as [|c c' rest rest' [Hs He] Hrest].
    + cbn [readline is_empty same_pass]. auto.
    + cbn [readline]. rewrite <- He. destruct (is_empty c); [cbn [same_pass]; auto|].
      pose proof (read_atoms_same_text (Z.to_nat n) 0 n (next_model (next_line_num st)) 0
                    rest rest' Hrest) as R.
      cbv zeta in R. destruct R as (E1 & E2 & E3).
      destruct (read_atoms _ _ _ _ _ rest) as [[evs1 st1] in1].
      destruct (read_atoms _ _ _ _ _ rest') as [[evs1' st1'] in1'].
      unfold events_of, counters_of, rest_of in *. cbn [fst snd] in E1, E2, E3.
      subst evs1' st1'. cbn [same_pass]. auto.
Qed.

Lemma emit_pass_same (evs : list event) (p p' : pass) :
  same_pass p p' -> same_pass (emit_pass evs p) (emit_pass evs p').
Proof.
  destruct p, p'; cbn [same_pass emit_pass]; try tauto.
  - intros [-> ->]. auto.
  - intros (-> & -> & H). auto.
Qed.

Lemma iteration_same_text (st : counters) (infile infile' : stream) :
  Forall2 same_text infile infile' ->
  same_pass (iteration st infile) (iteration st infile').
Proof.
  intros H. unfold iteration.
  destruct H as [|h h' rest rest' [Hs He] Hrest].
  - cbn [readline is_empty same_pass]. auto.
  - cbn [readline]. rewrite <- He. destruct (is_empty h); [cbn [same_pass]; auto|].
    unfold read_header. rewrite <- Hs.
    destruct (parse_int (strip h)) as [n|].
    + apply emit_pass_same. apply read_frame_same_text. exact Hrest.
    + destruct (recover_same_text rest (next_line_num st) rest' Hrest) as [E1 E2].
      destruct (recover (next_line_num st) rest) as [[found st1] in1].
      destruct (recover (next_line_num st) rest') as [[found' st1'] in1'].
      cbn [fst snd] in E1, E2. inversion E1; subst.
      destruct found' as [n|]; [|cbn [same_pass]; auto].
      apply emit_pass_same. apply read_frame_same_text. exact E2.
Qed.

Lemma frames_same_text (fuel : nat) :
  forall st infile infile',
    Forall2 same_text infile infile' ->
    frames fuel st infile = frames fuel st infile'.
Proof.
  induction fuel as [|fuel IH]; intros st infile infile' H; [reflexivity|].
  rewrite !frames_step. pose proof (iteration_same_text st _ _ H) as P.
  destruct (iteration st infile) as [evs st1|evs st1 in1];
    destruct (iteration st infile') as [evs' st1'|evs' st1' in1'];
    cbn [same_pass] in P; try contradiction.
  - destruct P as [-> ->]. reflexivity.
  - destruct P as (-> & -> & P). rewrite (IH _ _ _ P). reflexivity.
Qed.

(** X12: the blanks before and after the text of a line play no part: two
    inputs whose lines have the same text between those blanks give the
    same writes, the same warnings and the same counters. *)
Theorem blanks_around_lines_do_not_matter (st : counters) (ls ls' : list string) :
  Forall2 same_text ls ls' ->
  convert st ls = convert st ls'.
Proof.
  intros H. unfold convert.
  rewrite (Forall2_length H), (frames_same_text _ st _ _ H). reflexivity.
Qed.

Lemma blanks_around_lines_do_not_matter_witness :
  convert initial [line "1"; line "water"; line "O 0.0 0.0 0.1"] =
  convert initial [line " 1  "; "water"%string; "   O 0.0 0.0 0.1"%string].
Proof.
  apply (blanks_around_lines_do_not_matter initial).
  repeat constructor.
Defined.

(** ** Lines left over after the frames *)

(** X13: lines after the last whole frame that hold no atom count, such as atom
    lines beyond the count of the last frame, add nothing to the output:
    it is the blocks of the frames and [END]. *)
Theorem surplus_lines_are_not_written
    (fs : list frame) (extra : list string) (st : counters) :
  Forall framed fs ->
  Forall nonempty extra ->
  Forall not_a_count extra ->
  0 <= model_count st ->
  fs <> [] ->
  exists evs st',
    convert st (flat_map frame_lines fs ++ extra) = Some (evs, st') /\
    writes evs = model_blocks (model_count st + 1) fs ++ [END] /\
    model_count st' = model_count st + Z.of_nat (List.length fs).
Proof.
  intros Hfs Hne Hnc Hmc Hnil.
  destruct (frames_framed_then fs st extra Hfs) as (evs1 & st1 & W1 & M1 & L1 & P1 & F1).
  pose proof (F1 1%nat) as F. rewrite (frames_without_a_count st1 extra Hne Hnc) in F.
  cbn [emit_opt] in F. rewrite (convert_frames _ _ _ _ _ F).
  eexists _, _. split; [reflexivity|]. cbn [model_count].
  split; [|exact M1].
  rewrite !writes_app, W1. unfold final_record. cbn [model_count]. rewrite M1.
  replace (0 <? model_count st + Z.of_nat (List.length fs)) with true
    by (symmetry; apply Z.ltb_lt; destruct fs; [congruence | simpl List.length; lia]).
  destruct extra; cbn [writes]; rewrite app_nil_r; reflexivity.
Qed.

Lemma surplus_lines_are_not_written_witness :
  exists evs st',
    convert initial (frame_lines two_atom_frame ++ [line "H 1.0 1.0 1.0"; line "H 2.0 2.0 2.0"])
    = Some (evs, st') /\
    writes evs = model_blocks 1 [two_atom_frame] ++ [END] /\
    model_count st' = 1.
Proof.
  apply (surplus_lines_are_not_written [two_atom_frame]
           [line "H 1.0 1.0 1.0"; line "H 2.0 2.0 2.0"] initial).
  - repeat constructor.
    exists 2. repeat split; try (vm_compute; reflexivity); try discriminate.
    repeat constructor; discriminate.
  - repeat constructor; discriminate.
  - repeat constructor.
  - simpl. lia.
  - discriminate.
Defined.

(** ** One line for every record *)

Lemma no_newline_app (a b : string) :
  no_newline (a ++ b)%string = no_newline a && no_newline b.
Proof.
  induction a as [|c a IH]; [reflexivity|].
  cbn [String.append no_newline]. rewrite IH. apply andb_assoc.
Qed.

Lemma no_newline_spaces (n : nat) : no_newline (spaces n) = true.
Proof.
  induction n as [|n IH]; [reflexivity | exact IH].
Qed.

Lemma no_newline_zeros (n : nat) : no_newline (zeros n) = true.
Proof.
  induction n as [|n IH]; [reflexivity | exact IH].
Qed.

Lemma no_newline_substring (s : string) :
  forall i n, no_newline s = true -> no_newline (substring i n s) = true.
Proof.
  induction s as [|c s IH]; intros i n H.
  - destruct i, n; reflexivity.
  - cbn [no_newline] in H. apply andb_prop in H. destruct H as [Hc Hs].
    destruct i as [|i]; destruct n as [|n]; cbn [substring no_newline]; auto.
    rewrite Hc. cbn [andb]. auto.
Qed.

Lemma no_newline_rjust (w : nat) (s : string) :
  no_newline s = true -> no_newline (rjust w s) = true.
Proof.
  intros H. unfold rjust. rewrite no_newline_app, no_newline_spaces, H. reflexivity.
Qed.

Lemma no_newline_ljust (w : nat) (s : string) :
  no_newline s = true -> no_newline (ljust w s) = true.
Proof.
  intros H. unfold ljust. rewrite no_newline_app, no_newline_spaces, H. reflexivity.
Qed.

Lemma digit_char_no_newline (n : Z) :
  Ascii.eqb (ascii_of_N (Z.to_N (48 + n mod 10))) "010" = false.
Proof.
  pose proof (Z.mod_pos_bound n 10 ltac:(lia)) as B.
  set (r := n mod 10) in *. clearbody r.
  assert (H : r = 0 \/ r = 1 \/ r = 2 \/ r = 3 \/ r = 4 \/ r = 5 \/ r = 6
              \/ r = 7 \/ r = 8 \/ r = 9) by lia.
  repeat (destruct H as [->|H]; [reflexivity|]). subst r. reflexivity.
Qed.

Lemma no_newline_digits_fuel (fuel : nat) :
  forall n acc, no_newline acc = true -> no_newline (digits_fuel fuel n acc) = true.
Proof.
  induction fuel as [|fuel IH]; intros n acc H; [exact H|].
  cbn [digits_fuel].
  assert (H' : no_newline (String (ascii_of_N (Z.to_N (48 + n mod 10))) acc) = true)
    by (cbn [no_newline]; rewrite digit_char_no_newline, H; reflexivity).
  destruct (n <? 10); [exact H' | apply IH; exact H'].
Qed.

Lemma no_newline_dec (n : Z) : no_newline (dec n) = true.
Proof.
  unfold dec, digits. destruct (n <? 0).
  - cbn [no_newline]. rewrite no_newline_digits_fuel; reflexivity.
  - apply no_newline_digits_fuel. reflexivity.
Qed.

Lemma no_newline_fixed_digits (p : nat) (n : Z) : no_newline (fixed_digits p n) = true.
Proof.
  unfold fixed_digits. cbv zeta.
  assert (H : no_newline (zeros (S p - String.length (digits n)) ++ digits n)%string = true).
  { rewrite no_newline_app, no_newline_zeros. apply no_newline_digits_fuel. reflexivity. }
  destruct p; [exact H|].
  rewrite !no_newline_app, !no_newline_substring by exact H. reflexivity.
Qed.

Lemma no_newline_format_f (p : nat) (x : spec_float) : no_newline (format_f p x) = true.
Proof.
  destruct x as [s|s| |s m e]; cbn [format_f].
  - rewrite no_newline_app, no_newline_fixed_digits. destruct s; reflexivity.
  - destruct s; reflexivity.
  - reflexivity.
  - rewrite no_newline_app, no_newline_fixed_digits. destruct s; reflexivity.
Qed.

Lemma no_blank_no_newline (s : string) : no_blank s = true -> no_newline s = true.
Proof.
  induction s as [|c s IH]; intros H; [reflexivity|].
  cbn [no_blank no_newline] in *. apply andb_prop in H. destruct H as [Hc Hs].
  rewrite (IH Hs), andb_true_r.
  destruct (Ascii.eqb c "010") eqn:E; [|reflexivity].
  apply Ascii.eqb_eq in E. subst c. discriminate.
Qed.

Lemma no_blank_snoc (t : string) (c : ascii) :
  no_blank t = true -> is_space c = false ->
  no_blank (t ++ String c EmptyString)%string = true.
Proof.
  intros Ht Hc. induction t as [|a t IH]; cbn [String.append no_blank] in *.
  - rewrite Hc. reflexivity.
  - apply andb_prop in Ht. destruct Ht as [Ha Ht]. rewrite Ha, (IH Ht). reflexivity.
Qed.

(** The tokens of a line hold no blank. *)
Lemma split_aux_no_blank (s : string) :
  forall cur,
    match cur with Some t => no_blank t = true | None => True end ->
    Forall (fun t => no_blank t = true) (split_aux cur s).
Proof.
  induction s as [|c s IH]; intros cur H; cbn [split_aux].
  - destruct cur; [constructor; [exact H | constructor] | constructor].
  - destruct (is_space c) eqn:E.
    + destruct cur; [constructor; [exact H|] |]; apply IH; exact I.
    + destruct cur as [t|]; apply IH.
      * apply no_blank_snoc; assumption.
      * cbn [no_blank]. rewrite E. reflexivity.
Qed.

Lemma parsed_element_no_newline (l element : string) (x y z : spec_float) :
  parse_atom_line l = ParsedAtom element x y z -> no_newline element = true.
Proof.
  intros E. apply no_blank_no_newline.
  pose proof (split_aux_no_blank l None I) as H. fold (split l) in H.
  unfold parse_atom_line in E.
  destruct (split l) as [|e [|p1 [|p2 [|p3 more]]]]; try discriminate.
  destruct (parse_float p1); [|discriminate].
  destruct (parse_float p2); [|discriminate].
  destruct (parse_float p3); [|discriminate].
  inversion E; subst. now inversion H.
Qed.

Lemma upper_char_newline (c : ascii) :
  Ascii.eqb (upper_char c) "010" = Ascii.eqb c "010".
Proof.
  destruct c as [[] [] [] [] [] [] [] []]; reflexivity.
Qed.

Lemma no_newline_upper (s : string) : no_newline (upper s) = no_newline s.
Proof.
  induction s as [|c s IH]; [reflexivity|].
  unfold upper in *. cbn [map_chars no_newline]. rewrite upper_char_newline, IH.
  reflexivity.
Qed.

Lemma one_line_atom (serial : Z) (element : string) (x y z : spec_float) :
  no_newline element = true ->
  one_line (render (ATOM (make_atom serial element x y z))).
Proof.
  intros H.
  cbn [render make_atom atom_serial atom_name res_name chain_id res_seq
       coord_x coord_y coord_z occupancy temp_factor element_sym].
  unfold format_pdb_line, take. cbv zeta. eexists. split; [reflexivity|].
  repeat first
    [ exact H
    | apply no_newline_format_f
    | apply no_newline_dec
    | apply no_newline_rjust
    | apply no_newline_ljust
    | apply no_newline_substring
    | rewrite no_newline_upper
    | rewrite no_newline_app; apply andb_true_intro; split
    | reflexivity ].
Qed.

Lemma one_line_model (n : Z) : one_line (render (MODEL n)).
Proof.
  cbn [render]. exists ("MODEL     " ++ rjust 4 (dec n))%string. split.
  - rewrite string_app_assoc. reflexivity.
  - rewrite no_newline_app, no_newline_rjust by apply no_newline_dec. reflexivity.
Qed.

Lemma one_line_fixed : one_line (render ENDMDL) /\ one_line (render END).
Proof.
  split; eexists; split; reflexivity.
Qed.

Lemma read_atoms_one_line (todo : nat) :
  forall i k st s infile,
    Forall (fun r => one_line (render r))
      (writes (events_of (read_atoms todo i k st s infile))).
Proof.
  induction todo as [|todo IH]; intros i k st s infile.
  - constructor.
  - destruct infile as [|l rest]; [constructor|].
    destruct (string_dec l EmptyString) as [->|Hl]; [constructor|].
    rewrite (read_atoms_step _ _ _ _ _ _ _ Hl).
    destruct (parse_atom_line l) as [|tok|element x y z] eqn:E;
      rewrite emit_events, writes_app; apply Forall_app; split; try apply IH.
    + constructor.
    + constructor.
    + rewrite writes_app, serial_warning_writes. cbn [app writes].
      constructor; [|constructor].
      apply one_line_atom. exact (parsed_element_no_newline _ _ _ _ _ E).
Qed.

Lemma read_frame_one_line (n : Z) (st : counters) (infile : stream) :
  match read_frame n st infile with
  | Break evs _ | Continue evs _ _ => Forall (fun r => one_line (render r)) (writes evs)
  end.
Proof.
  unfold read_frame. destruct (n <=? 0).
  - destruct (skip_lines _ _ _). constructor.
  - destruct (readline infile) as [c rest]. destruct (is_empty c); [constructor|].
    pose proof (read_atoms_one_line (Z.to_nat n) 0 n (next_model (next_line_num st)) 0 rest) as H.
    destruct (read_atoms _ _ _ _ _ _) as [[evs1 st1] in1].
    unfold events_of in H. cbn [fst] in H. cbn [writes].
    constructor; [apply one_line_model|].
    rewrite writes_app. apply Forall_app. split; [exact H|].
    constructor; [apply one_line_fixed | constructor].
Qed.

Lemma iteration_one_line (st : counters) (infile : stream) :
  match iteration st infile with
  | Break evs _ | Continue evs _ _ => Forall (fun r => one_line (render r)) (writes evs)
  end.
Proof.
  unfold iteration. destruct (readline infile) as [h rest].
  destruct (is_empty h); [constructor|].
  destruct (read_header h (next_line_num st) rest) as [[[w found] st1] in1] eqn:E.
  apply read_header_quiet in E. destruct E as [Ew _].
  destruct found as [n|]; [|rewrite Ew; constructor].
  pose proof (read_frame_one_line n st1 in1) as H.
  destruct (read_frame n st1 in1); cbn [emit_pass]; rewrite writes_app, Ew; exact H.
Qed.

Lemma frames_one_line (fuel : nat) :
  forall st infile evs st',
    frames fuel st infile = Some (evs, st') ->
    Forall (fun r => one_line (render r)) (writes evs).
Proof.
  induction fuel as [|fuel IH]; intros st infile evs st' E; [discriminate|].
  rewrite frames_step in E. pose proof (iteration_one_line st infile) as H.
  destruct (iteration st infile) as [evs1 st1|evs1 st1 in1].
  - inversion E; subst. exact H.
  - destruct (frames fuel st1 in1) as [[evs2 st2]|] eqn:E2; [|discriminate].
    cbn [emit_opt] in E. inversion E; subst.
    rewrite writes_app. apply Forall_app. split; [exact H | exact (IH _ _ _ _ E2)].
Qed.

(** X14: every write is one line of the output file: the text of a record ends
    with a newline and holds no other, whatever stands in the input. *)
Theorem every_record_is_one_line (content : string) :
  exists evs st,
    xyz_to_pdb content = Some (evs, st) /\
    Forall (fun r => one_line (render r)) (writes evs).
Proof.
  unfold xyz_to_pdb.
  destruct (frames_total (S (List.length (file_lines content))) initial (file_lines content))
    as (evs & st & E); [lia|].
  rewrite (convert_frames _ _ _ _ _ E).
  eexists _, _. split; [reflexivity|].
  rewrite writes_app. apply Forall_app. split; [exact (frames_one_line _ _ _ _ _ E)|].
  unfold final_record. destruct (0 <? model_count st); cbn [writes].
  - constructor; [apply one_line_fixed | constructor].
  - constructor.
Qed.

(** ** Serial numbers beyond five digits *)

Lemma long_serials_app (a b : list record) :
  long_serials (a ++ b) = long_serials a ++ long_serials b.
Proof.
  induction a as [|r a IH]; [reflexivity|].
  destruct r as [n|x| |]; cbn [app long_serials]; try exact IH.
  destruct (99999 <? atom_serial x); cbn [app]; rewrite IH; reflexivity.
Qed.

Lemma warned_serials_app (a b : list diag) :
  warned_serials (a ++ b) = warned_serials a ++ warned_serials b.
Proof.
  induction a as [|d a IH]; [reflexivity|].
  destruct d; cbn [app warned_serials]; rewrite IH; reflexivity.
Qed.

Lemma read_atoms_long_serials (todo : nat) :
  forall i k st s infile,
    let r := read_atoms todo i k st s infile in
    warned_serials (warnings (events_of r)) = long_serials (writes (events_of r)).
Proof.
  induction todo as [|todo IH]; intros i k st s infile; cbv zeta; [reflexivity|].
  destruct infile as [|l rest]; [reflexivity|].
  destruct (string_dec l EmptyString) as [->|Hl]; [reflexivity|].
  rewrite (read_atoms_step _ _ _ _ _ _ _ Hl).
  destruct (parse_atom_line l) as [|tok|element x y z];
    rewrite emit_events, writes_app, warnings_app, warned_serials_app, long_serials_app, IH.
  - reflexivity.
  - reflexivity.
  - f_equal. unfold serial_warning.
    destruct (99999 <? s + 1) eqn:E; cbn [app writes warnings warned_serials long_serials
                                          make_atom atom_serial]; rewrite E; reflexivity.
Qed.

Lemma read_frame_long_serials (n : Z) (st : counters) (infile : stream) :
  match read_frame n st infile with
  | Break evs _ | Continue evs _ _ =>
      warned_serials (warnings evs) = long_serials (writes evs)
  end.
Proof.
  unfold read_frame. destruct (n <=? 0).
  - destruct (skip_lines _ _ _). reflexivity.
  - destruct (readline infile) as [c rest]. destruct (is_empty c); [reflexivity|].
    pose proof (read_atoms_long_serials (Z.to_nat n) 0 n (next_model (next_line_num st)) 0
                  rest) as H.
    cbv zeta in H. destruct (read_atoms _ _ _ _ _ _) as [[evs1 st1] in1].
    unfold events_of in H. cbn [fst] in H.
    cbn [writes warnings long_serials].
    rewrite writes_app, warnings_app, warned_serials_app, long_serials_app, H.
    reflexivity.
Qed.

Lemma iteration_long_serials (st : counters) (infile : stream) :
  match iteration st infile with
  | Break evs _ | Continue evs _ _ =>
      warned_serials (warnings evs) = long_serials (writes evs)
  end.
Proof.
  unfold iteration. destruct (readline infile) as [h rest].
  destruct (is_empty h); [reflexivity|].
  unfold read_header. destruct (parse_int (strip h)) as [n|].
  - pose proof (read_frame_long_serials n (next_line_num st) rest) as H.
    destruct (read_frame _ _ _); exact H.
  - destruct (recover _ _) as [[found st1] in1].
    destruct found as [n|]; [|reflexivity].
    pose proof (read_frame_long_serials n st1 in1) as H.
    destruct (read_frame _ _ _); cbn [emit_pass app writes warnings warned_serials]; exact H.
Qed.

Lemma frames_long_serials (fuel : nat) :
  forall st infile evs st',
    frames fuel st infile = Some (evs, st') ->
    warned_serials (warnings evs) = long_serials (writes evs).
Proof.
  induction fuel as [|fuel IH]; intros st infile evs st' E; [discriminate|].
  rewrite frames_step in E. pose proof (iteration_long_serials st infile) as H.
  destruct (iteration st infile) as [evs1 st1|evs1 st1 in1].
  - inversion E; subst. exact H.
  - destruct (frames fuel st1 in1) as [[evs2 st2]|] eqn:E2; [|discriminate].
    cbn [emit_opt] in E. inversion E; subst.
    rewrite writes_app, warnings_app, warned_serials_app, long_serials_app, H.
    f_equal. exact (IH _ _ _ _ E2).
Qed.

(** X15: the warning of line 151 is printed for the ATOM records with a serial
    number above 99999, for each of them once and in their order, and for
    no other; these records are written with their number in full. *)
Theorem long_serials_are_warned_and_written (content : string) :
  exists evs st,
    xyz_to_pdb content = Some (evs, st) /\
    warned_serials (warnings evs) = long_serials (writes evs).
Proof.
  unfold xyz_to_pdb.
  destruct (frames_total (S (List.length (file_lines content))) initial (file_lines content))
    as (evs & st & E); [lia|].
  rewrite (convert_frames _ _ _ _ _ E).
  eexists _, _. split; [reflexivity|].
  rewrite writes_app, warnings_app, warned_serials_app, long_serials_app.
  rewrite (frames_long_serials _ _ _ _ _ E).
  unfold final_record. destruct (0 <? model_count st); reflexivity.
Qed.

(** ** The declared count as a bound *)

Lemma read_atoms_bound (todo : nat) :
  forall i k st s infile,
    count_atoms (writes (events_of (read_atoms todo i k st s infile))) <= Z.of_nat todo.
Proof.
  induction todo as [|todo IH]; intros i k st s infile; [cbn; lia|].
  destruct infile as [|l rest]; [cbn -[Z.of_nat]; lia|].
  destruct (string_dec l EmptyString) as [->|Hl]; [cbn -[Z.of_nat]; lia|].
  rewrite (read_atoms_step _ _ _ _ _ _ _ Hl).
  destruct (parse_atom_line l) as [|tok|element x y z];
    rewrite emit_events, writes_app, count_atoms_app;
    match goal with
    | |- context [read_atoms todo ?a ?b ?c ?d rest] => specialize (IH a b c d rest)
    end.
  - cbn [writes count_atoms]. lia.
  - cbn [writes count_atoms]. lia.
  - rewrite writes_app, serial_warning_writes. cbn [app writes count_atoms]. lia.
Qed.

(** X16: a frame never gets more ATOM records than the atom count it declares,
    whatever follows its header: lines beyond the count are left for the
    next pass of the loop. *)
Theorem frame_keeps_to_declared_count (n : Z) (st : counters) (infile : stream) :
  match read_frame n st infile with
  | Break evs _ | Continue evs _ _ => count_atoms (writes evs) <= Z.max 0 n
  end.
Proof.
  unfold read_frame. destruct (n <=? 0) eqn:E.
  - destruct (skip_lines _ _ _). cbn [writes count_atoms]. lia.
  - apply Z.leb_gt in E. destruct (readline infile) as [c rest].
    destruct (is_empty c); [cbn [writes count_atoms]; lia|].
    pose proof (read_atoms_bound (Z.to_nat n) 0 n (next_model (next_line_num st)) 0 rest) as H.
    destruct (read_atoms _ _ _ _ _ _) as [[evs1 st1] in1].
    unfold events_of in H. cbn [fst] in H.
    cbn [writes count_atoms]. rewrite writes_app, count_atoms_app.
    cbn [writes count_atoms]. lia.
Qed.
